(** * Covariance ellipses of [Uncertainty_plotting.ipynb]

    A shallow embedding of the two functions of the notebook's last code
    cell, [cov_to_ellipse] and [plot_ellipse], over the real numbers, and the
    properties the specification states about them.

    The notebook computes with NumPy floats; here every float is a real
    number ([R]), so rounding, NaN, infinities and signed zeros are outside
    the model.  The library calls are modelled as follows.
    - [np.sqrt], [np.arctan2], [np.degrees]: real functions ([Numpy]).  On
      floats [np.arctan2] reaches both ends of [-pi, pi] (it answers [-pi]
      for [y = -0.0] and for a result that rounds to it), so bounds on an
      angle are stated with both ends closed.
    - [sl.svd]: a parameter [svd] of the functions that call it.  What the
      theorems assume about it is the contract of the SciPy documentation
      ([is_svd]): unitary [U] and [Vh], singular values non-negative and in
      non-increasing order, [a = U @ diag(s) @ Vh].  The contract does not
      fix the sign of the singular vectors.
    - [matplotlib.patches.Ellipse]: a record of the constructor's arguments.
      The keyword arguments are taken to be ones the constructor accepts,
      like [fc] and [lw] of the notebook's call; a call of [cov_to_ellipse]
      that fails for another reason than the decomposition (a keyword named
      [xy], [width], [height], [angle], [cov] or [pos], say) is outside the
      model.
    - [ax.add_artist]: the axes are the list of their artists, in the order
      they were added.
    - a Python exception: the [Raised] case of [result].

    The cells of the tutorial notebook [General_Python.ipynb] that define
    code of their own, the two ways of building a list and a dict and the
    classes [Shape], [Square] and [Circle] with the loop over them, are
    embedded in [GeneralPython]: ints are integers ([Z]), the numbers of the
    shapes are reals, an instance is its class with its attribute
    dictionary, and a formatted string is kept as the values that fill its
    fields. *)

From Stdlib Require Import Reals Lra Psatz RNsatz String List.
From Stdlib Require Import ZArith Lia DecimalString DecimalZ.
Import ListNotations.
Open Scope R_scope.

(** ** Python results *)

(** The name of an exception class. *)
Definition exn := string.

Inductive result (A : Type) : Type :=
| Returned (a : A)
| Raised (e : exn).
Arguments Returned {A} a.
Arguments Raised {A} e.

Definition bind {A B : Type} (m : result A) (k : A -> result B) : result B :=
  match m with
  | Returned a => k a
  | Raised e => Raised e
  end.

Notation "x <- m ;; k" := (bind m (fun x => k))
  (at level 61, m at next level, right associativity).
Notation "' p <- m ;; k" := (bind m (fun x => let 'p := x in k))
  (at level 61, p pattern, m at next level, right associativity).

(** ** NumPy on real numbers *)

Module Numpy.

(** [np.degrees(x)]: [x * 180 / pi]. *)
Definition degrees (x : R) : R := x * (180 / PI).

(** [np.radians(x)], the inverse of [degrees]; only used in statements. *)
Definition radians (x : R) : R := x * (PI / 180).

(** [np.sqrt] on a non-negative real. *)
Definition sqrt (x : R) : R := R_sqrt.sqrt x.

(** [np.arctan2(y, x)] on real numbers: the angle of the point [(x, y)];
    [arctan2(0, 0)] is [0].  The reals have one zero, so the negative x axis
    gets [pi]; NumPy gives it [pi] for [y = 0.0] and [-pi] for [y = -0.0],
    and its documented range is [-pi, pi]. *)
Definition arctan2 (y x : R) : R :=
  if Rlt_dec 0 x then atan (y / x)
  else if Rlt_dec x 0 then
    if Rle_dec 0 y then atan (y / x) + PI else atan (y / x) - PI
  else if Rlt_dec 0 y then PI / 2
  else if Rlt_dec y 0 then - (PI / 2)
  else 0.

End Numpy.

(** ** 2x2 arrays *)

(** [np.array([[m00, m01], [m10, m11]])]. *)
Record Mat2 : Type := mat2 { m00 : R; m01 : R; m10 : R; m11 : R }.

(** [M[i, j]] for the indices the notebook uses. *)
Definition at2 (M : Mat2) (i j : nat) : R :=
  match i, j with
  | O, O => m00 M
  | O, S _ => m01 M
  | S _, O => m10 M
  | S _, S _ => m11 M
  end.

Definition mmul (A B : Mat2) : Mat2 :=
  mat2 (m00 A * m00 B + m01 A * m10 B) (m00 A * m01 B + m01 A * m11 B)
       (m10 A * m00 B + m11 A * m10 B) (m10 A * m01 B + m11 A * m11 B).

Definition mtrans (A : Mat2) : Mat2 :=
  mat2 (m00 A) (m10 A) (m01 A) (m11 A).

Definition mscale (c : R) (A : Mat2) : Mat2 :=
  mat2 (c * m00 A) (c * m01 A) (c * m10 A) (c * m11 A).

Definition mid : Mat2 := mat2 1 0 0 1.

(** [np.diag(s)] for the 1-D array [s] of two singular values. *)
Definition mdiag (s : R * R) : Mat2 := mat2 (fst s) 0 0 (snd s).

Definition symmetric (A : Mat2) : Prop := m01 A = m10 A.

Definition unitary (A : Mat2) : Prop :=
  mmul (mtrans A) A = mid /\ mmul A (mtrans A) = mid.

(** ** The contract of [scipy.linalg.svd] *)

(** What [sl.svd(a, full_matrices=False)] returns for a 2x2 array. *)
Definition svd_out : Type := Mat2 * (R * R) * Mat2.

(** "Factorizes the matrix a into two unitary matrices U and Vh, and a 1-D
    array s of singular values (real, non-negative) such that
    a == U @ S @ Vh"; "the singular values, sorted in non-increasing
    order". *)
Definition is_svd (a : Mat2) (d : svd_out) : Prop :=
  let '(U, s, Vh) := d in
  unitary U /\ unitary Vh /\ 0 <= snd s <= fst s /\
  a = mmul (mmul U (mdiag s)) Vh.

(** The call [svd a] returns, and what it returns meets the contract. *)
Definition svd_ok (svd : Mat2 -> result svd_out) (a : Mat2) : Prop :=
  exists d, svd a = Returned d /\ is_svd a d.

(** ** The notebook's data *)

(** A row of the table [t] read from [data.csv]: the columns the functions
    use. *)
Record Row : Type := row { x : R; y : R; sx : R; sy : R; pxy : R }.

Definition Table : Type := list Row.

(** Keyword arguments that [Ellipse] accepts, passed on unchanged: names
    with printed values. *)
Definition kwargs : Type := list (string * string).

(** [matplotlib.patches.Ellipse(xy=..., width=..., height=..., angle=...,
    **kwargs)]. *)
Record Ellipse : Type := mkEllipse {
  xy : R * R;
  width : R;
  height : R;
  angle : R;
  props : kwargs
}.

(** The artists of an axes object, oldest first. *)
Definition Axes : Type := list Ellipse.

Definition add_artist (ax : Axes) (a : Ellipse) : Axes := ax ++ [a].

(** ** The notebook's functions *)

Section Notebook.

Variable svd : Mat2 -> result svd_out.

(** [def cov_to_ellipse(cov, pos, **kwargs)], for keyword arguments that
    [Ellipse] accepts. *)
Definition cov_to_ellipse (cov : Mat2) (pos : R * R) (kw : kwargs)
  : result Ellipse :=
  '(eigvec, eigval, V) <- svd cov ;;
  let theta := Numpy.degrees (Numpy.arctan2 (at2 eigvec 1 0) (at2 eigvec 0 0)) in
  let '(width, height) :=
    (2 * Numpy.sqrt (fst eigval), 2 * Numpy.sqrt (snd eigval)) in
  Returned (mkEllipse pos width height theta kw).

(** The array [cov] that the loop of [plot_ellipse] builds from a row. *)
Definition row_cov (r : Row) : Mat2 :=
  mat2 (sx r ^ 2) (pxy r * sx r * sy r)
       (pxy r * sx r * sy r) (sy r ^ 2).

(** The [for row in t] loop of [plot_ellipse] on the axes [ax].  An exception
    of the body leaves the loop; the artists added before it stay on the
    axes. *)
Fixpoint plot_rows (t : Table) (kw : kwargs) (ax : Axes)
  : result unit * Axes :=
  match t with
  | [] => (Returned tt, ax)
  | r :: t' =>
      let cov := row_cov r in
      match cov_to_ellipse cov (x r, y r) kw with
      | Returned ellip => plot_rows t' kw (add_artist ax ellip)
      | Raised e => (Raised e, ax)
      end
  end.

(** [def plot_ellipse(t, ax=None, **kwargs)]; [gca] is the current axes of
    pyplot, which [plt.gca()] returns.  The function returns [None]; the
    second component is the axes it drew on, after the call. *)
Definition plot_ellipse (gca : Axes) (t : Table) (ax : option Axes)
  (kw : kwargs) : result unit * Axes :=
  let ax := match ax with None => gca | Some a => a end in
  plot_rows t kw ax.

End Notebook.

(** ** Notions the specification uses *)

(** An [UncertainPoint] is valid when its standard deviations are
    non-negative and its correlation coefficient lies in [-1, 1]. *)
Definition valid (r : Row) : Prop :=
  0 <= sx r /\ 0 <= sy r /\ -1 <= pxy r <= 1.

Definition validb (r : Row) : bool :=
  if Rle_dec 0 (sx r) then
    if Rle_dec 0 (sy r) then
      if Rle_dec (-1) (pxy r) then
        if Rle_dec (pxy r) 1 then true else false
      else false
    else false
  else false.

(** The eigenvalues of a symmetric 2x2 matrix, larger first. *)
Definition eig_radius (A : Mat2) : R :=
  R_sqrt.sqrt ((m00 A - m11 A) / 2 * ((m00 A - m11 A) / 2) + m01 A * m01 A).

Definition lambda_max (A : Mat2) : R := (m00 A + m11 A) / 2 + eig_radius A.

Definition lambda_min (A : Mat2) : R := (m00 A + m11 A) / 2 - eig_radius A.

(** The squared Frobenius norm and the determinant. *)
Definition frob (A : Mat2) : R :=
  m00 A * m00 A + m01 A * m01 A + m10 A * m10 A + m11 A * m11 A.

Definition det (A : Mat2) : R := m00 A * m11 A - m01 A * m10 A.

(** A symmetric 2x2 matrix is positive semi-definite when its diagonal and
    its determinant are non-negative. *)
Definition psd (A : Mat2) : Prop :=
  symmetric A /\ 0 <= m00 A /\ 0 <= m11 A /\ 0 <= det A.

(** The error condition the specification names. *)
Definition InvalidCovariance : exn := "InvalidCovariance"%string.

(** The centre of the ellipse of a row. *)
Definition center (r : Row) : R * R := (x r, y r).

(** [es] are the ellipses [cov_to_ellipse] returns for the rows of [t], one
    by one. *)
Definition drawn (svd : Mat2 -> result svd_out) (kw : kwargs) (t : Table)
  (es : list Ellipse) : Prop :=
  Forall2 (fun r e => cov_to_ellipse svd (row_cov r) (x r, y r) kw = Returned e)
          t es.


(** The row with the two standard deviations exchanged. *)
Definition swap_sigma (r : Row) : Row :=
  row (x r) (y r) (sy r) (sx r) (pxy r).

(** The first column of the [U] that [svd] returns for [a]: the vector whose
    angle [cov_to_ellipse] takes. *)
Definition left_vector (svd : Mat2 -> result svd_out) (a : Mat2)
  : option (R * R) :=
  match svd a with
  | Returned (U, _, _) => Some (at2 U 0 0, at2 U 1 0)
  | Raised _ => None
  end.

(** ** Sample rows *)

(** The specification's concrete scenario, [sx = 3], [sy = 1], [rho = 0],
    and the same point with the two standard deviations exchanged. *)
Definition r31 : Row := row 0 0 3 1 0.
Definition r13 : Row := row 0 0 1 3 0.

(** A valid point with correlation [1/2]. *)
Definition r_half : Row := row 0 0 1 1 (1 / 2).

(** The specification's invalid input, [sx = sy = 1], [rho = 1.5]. *)
Definition r15 : Row := row 0 0 1 1 (3 / 2).

(** A point without uncertainty. *)
Definition r00 : Row := row 2 5 0 0 (1 / 2).

(** A point that is uncertain along x only. *)
Definition r30 : Row := row 0 0 3 0 (1 / 2).

(** ** A reference decomposition for symmetric arrays

    A closed-form SVD of a symmetric 2x2 matrix, from its eigenvalues and a
    unit eigenvector of the larger one.  It shows that the contract [is_svd]
    can be met on every array [plot_ellipse] builds; [svd_flip] is the same
    decomposition with the opposite sign of the singular vectors, which
    meets the contract as well. *)

Definition sgn (v : R) : R := if Rle_dec 0 v then 1 else -1.

(** A unit eigenvector of [lambda_max A]. *)
Definition eig_dir (A : Mat2) : R * R :=
  let h := (m00 A - m11 A) / 2 in
  let b := m01 A in
  let r := eig_radius A in
  if Req_dec_T b 0 then
    if Rle_dec 0 h then (1, 0) else (0, 1)
  else
    let n := R_sqrt.sqrt ((r + h) * (r + h) + b * b) in
    ((r + h) / n, b / n).

Definition svd_sym (A : Mat2) : result svd_out :=
  let '(c, s) := eig_dir A in
  let p := lambda_max A in
  let q := lambda_min A in
  if Rle_dec (Rabs q) (Rabs p) then
    Returned (mat2 c (- s) s c, (Rabs p, Rabs q),
              mat2 (sgn p * c) (sgn p * s) (- sgn q * s) (sgn q * c))
  else
    Returned (mat2 (- s) c c s, (Rabs q, Rabs p),
              mat2 (- sgn q * s) (sgn q * c) (sgn p * c) (sgn p * s)).

Definition svd_flip (A : Mat2) : result svd_out :=
  '(U, s, Vh) <- svd_sym A ;;
  Returned (mscale (-1) U, s, mscale (-1) Vh).

(** A routine that raises [LinAlgError], as [sl.svd] does when its iteration
    does not converge, on an array of negative determinant, and otherwise
    answers like [svd_sym]. *)
Definition svd_picky (A : Mat2) : result svd_out :=
  if Rle_dec 0 (det A) then svd_sym A else Raised "LinAlgError"%string.


(** The axes [plot_ellipse] draws on. *)
Definition target (gca : Axes) (ax : option Axes) : Axes :=
  match ax with None => gca | Some a => a end.

(** * The tutorial notebook [General_Python.ipynb] *)

Module GeneralPython.

(** ** Building a list and a dict, by a loop and by a comprehension *)

(** [list_loop = []; for i in a: list_loop.append(i**2)] *)
Definition list_loop (a : list Z) : list Z :=
  fold_left (fun acc i => acc ++ [(i ^ 2)%Z]) a [].

(** [[i**2 for i in a]] *)
Definition list_comp (a : list Z) : list Z := map (fun i => (i ^ 2)%Z) a.

(** A dict with string keys and int values: its items, in insertion
    order. *)
Definition dict : Type := list (string * Z).

(** [d[k] = v] *)
Fixpoint dict_set (d : dict) (k : string) (v : Z) : dict :=
  match d with
  | [] => [(k, v)]
  | (k', v') :: d' =>
      if String.eqb k' k then (k, v) :: d' else (k', v') :: dict_set d' k v
  end.

(** [d[k]]; [None] stands for [KeyError]. *)
Fixpoint dict_get (d : dict) (k : string) : option Z :=
  match d with
  | [] => None
  | (k', v') :: d' => if String.eqb k' k then Some v' else dict_get d' k
  end.

(** ['key{0}'.format(i)] for an int [i]: the decimal numeral, with a minus
    sign for a negative number. *)
Definition format_key (i : Z) : string :=
  ("key" ++ NilZero.string_of_int (Z.to_int i))%string.

(** [dict_loop = {}; for i in a: dict_loop['key{0}'.format(i)] = i] *)
Definition dict_loop (a : list Z) : dict :=
  fold_left (fun d i => dict_set d (format_key i) i) a [].

(** [{'key{0}'.format(i): i for i in a}]: the items are produced in the
    order of [a] and stored one after the other. *)
Definition dict_comp (a : list Z) : dict :=
  fold_left (fun d kv => dict_set d (fst kv) (snd kv))
            (map (fun i => (format_key i, i)) a) [].

(** ** The classes [Shape], [Square] and [Circle] *)

















(** A string made by [str.format].  The text of a number depends on its
    Python type ([1] for an int, [1.0] for a float), which the real numbers
    do not record; the model keeps the values that fill the fields of the
    format string, in their order, in place of the text. *)






End GeneralPython.

(** Turns a hypothesis [is_svd A (U, s, Vh)] into equations between reals. *)
Ltac svd_unpack H :=
  let Hu1 := fresh "Hu" in let Hu2 := fresh "Hu" in
  let Hv1 := fresh "Hv" in let Hv2 := fresh "Hv" in
  let Hs := fresh "Hs" in let Ha := fresh "Ha" in
  destruct H as [[Hu1 Hu2] [[Hv1 Hv2] [Hs Ha]]];
  unfold mmul, mtrans, mid, mdiag in Hu1, Hu2, Hv1, Hv2, Ha;
  cbn [m00 m01 m10 m11 fst snd] in Hu1, Hu2, Hv1, Hv2, Hs, Ha;
  injection Hu1 as ? ? ? ?; injection Hu2 as ? ? ? ?;
  injection Hv1 as ? ? ? ?; injection Hv2 as ? ? ? ?.

(** * Properties *)

(** ** NumPy functions *)

Module NumpyFacts.
Import Numpy.

Lemma radians_degrees (a : R) : radians (degrees a) = a.
Proof.
  unfold radians, degrees. pose proof PI_RGT_0. field. lra.
Qed.

Lemma degrees_lt (a b : R) : a < b -> degrees a < degrees b.
Proof.
  intros H. unfold degrees. apply Rmult_lt_compat_r; [|exact H].
  pose proof PI_RGT_0. apply Rdiv_lt_0_compat; lra.
Qed.

Lemma degrees_PI : degrees PI = 180.
Proof. unfold degrees. pose proof PI_RGT_0. field. lra. Qed.

Lemma degrees_opp (a : R) : degrees (- a) = - degrees a.
Proof. unfold degrees. ring. Qed.

Lemma degrees_0 : degrees 0 = 0.
Proof. unfold degrees. ring. Qed.

Lemma degrees_half_PI : degrees (PI / 2) = 90.
Proof. unfold degrees. pose proof PI_RGT_0. field. lra. Qed.

(** [arctan2] takes its values in (-pi, pi]. *)
Lemma arctan2_bound (v u : R) : - PI < arctan2 v u <= PI.
Proof.
  unfold arctan2. pose proof PI_RGT_0 as HPI.
  destruct (Rlt_dec 0 u) as [Hu|Hu].
  - pose proof (atan_bound (v / u)). lra.
  - destruct (Rlt_dec u 0) as [Hu'|Hu'].
    + destruct (Rle_dec 0 v) as [Hv|Hv].
      * assert (Hq : v / u <= 0).
        { unfold Rdiv. assert (/ u < 0) by (apply Rinv_lt_0_compat; exact Hu').
          nra. }
        assert (atan (v / u) <= 0).
        { destruct Hq as [Hq|Hq].
          - left. rewrite <- atan_0. apply atan_increasing. exact Hq.
          - rewrite Hq, atan_0. lra. }
        pose proof (atan_bound (v / u)). lra.
      * assert (Hq : 0 < v / u).
        { unfold Rdiv. assert (/ u < 0) by (apply Rinv_lt_0_compat; exact Hu').
          nra. }
        assert (0 < atan (v / u)).
        { rewrite <- atan_0. apply atan_increasing. exact Hq. }
        pose proof (atan_bound (v / u)). lra.
    + destruct (Rlt_dec 0 v); [lra|]. destruct (Rlt_dec v 0); lra.
Qed.

Lemma sqrt_polar (v u : R) :
  u <> 0 -> u * u + v * v = 1 -> R_sqrt.sqrt (1 + (v / u)²) = / Rabs u.
Proof.
  intros Hu H1.
  replace (1 + (v / u)²) with (Rsqr (/ u)).
  - rewrite sqrt_Rsqr_abs. apply Rabs_inv.
  - unfold Rsqr.
    transitivity ((u * u + v * v) / (u * u)); [|field; exact Hu].
    rewrite H1. field. exact Hu.
Qed.

(** On the unit circle [arctan2] is the polar angle. *)
Lemma arctan2_polar (v u : R) :
  u * u + v * v = 1 ->
  cos (arctan2 v u) = u /\ sin (arctan2 v u) = v.
Proof.
  intros H1. unfold arctan2.
  destruct (Rlt_dec 0 u) as [Hu|Hu].
  - rewrite cos_atan, sin_atan, sqrt_polar by lra.
    rewrite Rabs_right by lra. split; field; lra.
  - destruct (Rlt_dec u 0) as [Hu'|Hu'].
    + assert (Hc : forall a, cos (a + PI) = - cos a /\ sin (a + PI) = - sin a).
      { intros a. rewrite cos_plus, sin_plus, cos_PI, sin_PI. split; ring. }
      assert (Hc' : forall a, cos (a - PI) = - cos a /\ sin (a - PI) = - sin a).
      { intros a. rewrite cos_minus, sin_minus, cos_PI, sin_PI. split; ring. }
      destruct (Rle_dec 0 v) as [Hv|Hv].
      * destruct (Hc (atan (v / u))) as [-> ->].
        rewrite cos_atan, sin_atan, sqrt_polar by lra.
        rewrite Rabs_left by lra. split; field; lra.
      * destruct (Hc' (atan (v / u))) as [-> ->].
        rewrite cos_atan, sin_atan, sqrt_polar by lra.
        rewrite Rabs_left by lra. split; field; lra.
    + assert (u = 0) by lra. subst u.
      destruct (Rlt_dec 0 v) as [Hv|Hv].
      * rewrite cos_PI2, sin_PI2. split; nra.
      * destruct (Rlt_dec v 0) as [Hv'|Hv'].
        -- rewrite cos_neg, sin_neg, cos_PI2, sin_PI2. split; nra.
        -- nra.
Qed.

Lemma arctan2_pos_axis (u : R) : 0 < u -> arctan2 0 u = 0.
Proof.
  intros Hu. unfold arctan2. destruct (Rlt_dec 0 u); [|lra].
  unfold Rdiv. rewrite Rmult_0_l. apply atan_0.
Qed.

Lemma arctan2_neg_axis (u : R) : u < 0 -> arctan2 0 u = PI.
Proof.
  intros Hu. unfold arctan2. destruct (Rlt_dec 0 u); [lra|].
  destruct (Rlt_dec u 0); [|lra]. destruct (Rle_dec 0 0); [|lra].
  unfold Rdiv. rewrite Rmult_0_l, atan_0. ring.
Qed.

Lemma arctan2_up (v : R) : 0 < v -> arctan2 v 0 = PI / 2.
Proof.
  intros Hv. unfold arctan2. destruct (Rlt_dec 0 0); [lra|].
  destruct (Rlt_dec 0 v); [reflexivity|lra].
Qed.

Lemma arctan2_down (v : R) : v < 0 -> arctan2 v 0 = - (PI / 2).
Proof.
  intros Hv. unfold arctan2. destruct (Rlt_dec 0 0); [lra|].
  destruct (Rlt_dec 0 v); [lra|]. destruct (Rlt_dec v 0); [reflexivity|lra].
Qed.

(** The third quadrant's diagonal. *)
Lemma arctan2_diag_neg (c : R) : 0 < c -> arctan2 (- c) (- c) = - (3 * PI / 4).
Proof.
  intros Hc. unfold arctan2. destruct (Rlt_dec 0 (- c)); [lra|].
  destruct (Rlt_dec (- c) 0); [|lra]. destruct (Rle_dec 0 (- c)); [lra|].
  replace (- c / - c) with 1 by (field; lra). rewrite atan_1. field.
Qed.


Lemma np_sqrt_nonneg (v : R) : 0 <= Numpy.sqrt v.
Proof. apply sqrt_pos. Qed.

Lemma sqrt_sq (v : R) : 0 <= v -> R_sqrt.sqrt (v * v) = v.
Proof. intros H. apply sqrt_square. exact H. Qed.


Lemma degrees_plus (a b : R) :
  Numpy.degrees (a + b) = Numpy.degrees a + Numpy.degrees b.
Proof. unfold Numpy.degrees. ring. Qed.

(** The angle of the opposite vector differs by half a turn. *)
Lemma arctan2_opp (v u : R) :
  u * u + v * v = 1 ->
  Numpy.arctan2 (- v) (- u) = Numpy.arctan2 v u + PI \/
  Numpy.arctan2 (- v) (- u) = Numpy.arctan2 v u - PI.
Proof.
  intros H1. unfold Numpy.arctan2.
  assert (Hq : u <> 0 -> - v / - u = v / u) by (intros; field; assumption).
  destruct (Rlt_dec 0 u) as [Hu|Hu].
  - destruct (Rlt_dec 0 (- u)); [lra|]. destruct (Rlt_dec (- u) 0); [|lra].
    rewrite Hq by lra. destruct (Rle_dec 0 (- v)); [left|right]; reflexivity.
  - destruct (Rlt_dec u 0) as [Hu'|Hu'].
    + destruct (Rlt_dec 0 (- u)); [|lra]. rewrite Hq by lra.
      destruct (Rle_dec 0 v); [right|left]; ring.
    + assert (u = 0) by lra. subst u. rewrite Ropp_0.
      destruct (Rlt_dec 0 0); [lra|].
      destruct (Rlt_dec 0 v) as [Hv|Hv].
      * destruct (Rlt_dec 0 (- v)); [lra|]. destruct (Rlt_dec (- v) 0); [|lra].
        right. field.
      * destruct (Rlt_dec v 0) as [Hv'|Hv']; [|nra].
        destruct (Rlt_dec 0 (- v)); [|lra]. left. field.
Qed.

End NumpyFacts.

(** ** Consequences of the SVD contract *)

Module SvdFacts.

Lemma svd_frob (A U Vh : Mat2) (s1 s2 : R) :
  is_svd A (U, (s1, s2), Vh) -> frob A = s1 * s1 + s2 * s2.
Proof.
  intros H. destruct U as [u00 u01 u10 u11], Vh as [v00 v01 v10 v11].
  svd_unpack H. subst A. unfold frob. cbn [m00 m01 m10 m11]. nsatz.
Qed.

Lemma svd_det_sq (A U Vh : Mat2) (s1 s2 : R) :
  is_svd A (U, (s1, s2), Vh) -> det A * det A = (s1 * s2) * (s1 * s2).
Proof.
  intros H. destruct U as [u00 u01 u10 u11], Vh as [v00 v01 v10 v11].
  svd_unpack H. subst A. unfold det. cbn [m00 m01 m10 m11]. nsatz.
Qed.

Lemma svd_det_abs (A U Vh : Mat2) (s1 s2 : R) :
  is_svd A (U, (s1, s2), Vh) -> s1 * s2 = Rabs (det A).
Proof.
  intros H. pose proof (svd_det_sq _ _ _ _ _ H) as Hd.
  destruct H as (_ & _ & Hs & _). cbn [fst snd] in Hs.
  assert (0 <= s1 * s2) by nra.
  rewrite <- (Rabs_right (s1 * s2)) by lra.
  apply Rsqr_eq_abs_0. unfold Rsqr. lra.
Qed.

(** Two ordered non-negative pairs with the same sum of squares and the same
    product are equal. *)
Lemma pair_determined (s1 s2 t1 t2 : R) :
  0 <= s2 <= s1 -> 0 <= t2 <= t1 ->
  s1 * s1 + s2 * s2 = t1 * t1 + t2 * t2 -> s1 * s2 = t1 * t2 ->
  s1 = t1 /\ s2 = t2.
Proof.
  intros Hs Ht Hq Hp.
  assert (Hsum : s1 + s2 = t1 + t2).
  { apply Rsqr_inj; [lra|lra|]. unfold Rsqr. lra. }
  assert (Hdif : s1 - s2 = t1 - t2).
  { apply Rsqr_inj; [lra|lra|]. unfold Rsqr. lra. }
  lra.
Qed.

(** The singular values are determined by the array: any two results that
    meet the contract carry the same [s]. *)
Lemma svd_values_unique (A U Vh U' Vh' : Mat2) (s s' : R * R) :
  is_svd A (U, s, Vh) -> is_svd A (U', s', Vh') -> s = s'.
Proof.
  destruct s as [s1 s2], s' as [t1 t2]. intros H H'.
  pose proof (svd_frob _ _ _ _ _ H). pose proof (svd_frob _ _ _ _ _ H').
  pose proof (svd_det_abs _ _ _ _ _ H). pose proof (svd_det_abs _ _ _ _ _ H').
  destruct H as (_ & _ & Hs & _), H' as (_ & _ & Hs' & _).
  cbn [fst snd] in Hs, Hs'.
  destruct (pair_determined s1 s2 t1 t2) as [-> ->]; try lra. reflexivity.
Qed.

(** The first row of [Vh] is mapped to [s1] times the first column of [U]:
    the first column of [U] is the axis of the first singular value. *)
Lemma svd_first_axis (A U Vh : Mat2) (s1 s2 : R) :
  is_svd A (U, (s1, s2), Vh) ->
  m00 A * m00 Vh + m01 A * m01 Vh = s1 * m00 U /\
  m10 A * m00 Vh + m11 A * m01 Vh = s1 * m10 U.
Proof.
  intros H. destruct U as [u00 u01 u10 u11], Vh as [v00 v01 v10 v11].
  svd_unpack H. subst A. cbn [m00 m01 m10 m11]. split; nsatz.
Qed.

Lemma svd_first_unit (A U Vh : Mat2) (s : R * R) :
  is_svd A (U, s, Vh) -> m00 U * m00 U + m10 U * m10 U = 1.
Proof.
  intros H. destruct U as [u00 u01 u10 u11], Vh as [v00 v01 v10 v11].
  svd_unpack H. cbn [m00 m01 m10 m11]. lra.
Qed.

Lemma svd_first_row_unit (A U Vh : Mat2) (s : R * R) :
  is_svd A (U, s, Vh) -> m00 Vh * m00 Vh + m01 Vh * m01 Vh = 1.
Proof.
  intros H. destruct U as [u00 u01 u10 u11], Vh as [v00 v01 v10 v11].
  svd_unpack H. cbn [m00 m01 m10 m11]. lra.
Qed.






(** The Gram matrix [A A^T] in terms of a decomposition. *)
Lemma svd_gram (A U Vh : Mat2) (s1 s2 : R) :
  is_svd A (U, (s1, s2), Vh) ->
  mmul A (mtrans A) = mmul (mmul U (mdiag (s1 * s1, s2 * s2))) (mtrans U).
Proof.
  intros H. destruct U as [u00 u01 u10 u11], Vh as [v00 v01 v10 v11].
  svd_unpack H. subst A. unfold mmul, mtrans, mdiag.
  cbn [m00 m01 m10 m11 fst snd]. f_equal; nsatz.
Qed.

(** When the two singular values differ, the first column of [U] is
    determined up to its sign. *)
Lemma svd_left_vector_unique (A U Vh U' Vh' : Mat2) (s1 s2 : R) :
  s2 < s1 ->
  is_svd A (U, (s1, s2), Vh) -> is_svd A (U', (s1, s2), Vh') ->
  (m00 U' = m00 U /\ m10 U' = m10 U) \/
  (m00 U' = - m00 U /\ m10 U' = - m10 U).
Proof.
  intros Hlt H H'.
  pose proof (svd_gram _ _ _ _ _ H) as G.
  pose proof (svd_gram _ _ _ _ _ H') as G'.
  rewrite G in G'. clear G.
  assert (Hs : 0 <= s2) by (destruct H as (_ & _ & Hs & _); apply Hs).
  destruct H as ((Hu1 & Hu2) & _), H' as ((Hu1' & Hu2') & _).
  destruct U as [u00 u01 u10 u11], U' as [w00 w01 w10 w11].
  unfold mmul, mtrans, mid, mdiag in *. cbn [m00 m01 m10 m11 fst snd] in *.
  injection Hu1 as ? ? ? ?. injection Hu2 as ? ? ? ?.
  injection Hu1' as ? ? ? ?. injection Hu2' as ? ? ? ?.
  injection G' as ? ? ? ?.
  set (b := u01 * w00 + u11 * w10).
  set (a := u00 * w00 + u10 * w10).
  assert (Hb : (s1 * s1 - s2 * s2) * b = 0) by (unfold b; nsatz).
  assert (Hb0 : b = 0).
  { apply Rmult_integral in Hb. destruct Hb as [Hb|Hb]; [nra|exact Hb]. }
  assert (E0 : w00 = a * u00 + b * u01) by (unfold a, b; nsatz).
  assert (E1 : w10 = a * u10 + b * u11) by (unfold a, b; nsatz).
  assert (Ea : a * a + b * b = 1) by (unfold a, b; nsatz).
  rewrite Hb0 in *.
  assert (Ha : (a - 1) * (a + 1) = 0) by lra.
  apply Rmult_integral in Ha. destruct Ha as [Ha|Ha].
  - left. assert (a = 1) by lra. split; nra.
  - right. assert (a = -1) by lra. split; nra.
Qed.

(** The decomposition of a diagonal covariance matrix whose first entry is
    the larger one: the first column of [U] is plus or minus the first unit
    vector. *)
Lemma diag_major_first (a d : R) (U Vh : Mat2) (s : R * R) :
  0 <= d < a -> is_svd (mat2 a 0 0 d) (U, s, Vh) ->
  s = (a, d) /\ m10 U = 0 /\ (m00 U = 1 \/ m00 U = -1).
Proof.
  intros Had H. destruct s as [s1 s2].
  pose proof (svd_frob _ _ _ _ _ H) as F.
  pose proof (svd_det_abs _ _ _ _ _ H) as D.
  unfold frob, det in F, D. cbn [m00 m01 m10 m11] in F, D.
  rewrite Rabs_right in D by nra.
  assert (Hord : 0 <= s2 <= s1) by (destruct H as (_ & _ & Hs & _); exact Hs).
  destruct (pair_determined s1 s2 a d) as [-> ->]; try lra.
  pose proof (svd_first_unit _ _ _ _ H) as Hu.
  pose proof (svd_first_row_unit _ _ _ _ H) as Hv.
  destruct (svd_first_axis _ _ _ _ _ H) as [Hx Hy].
  cbn [m00 m01 m10 m11] in Hx, Hy.
  assert (E0 : m00 Vh = m00 U) by nra.
  assert (Hy' : a * m10 U = d * m01 Vh) by lra.
  assert (E1 : a * a * (m10 U * m10 U) = d * d * (m01 Vh * m01 Vh)).
  { transitivity (a * m10 U * (a * m10 U)); [ring|rewrite Hy'; ring]. }
  assert (E2 : (a * a - d * d) * (m10 U * m10 U) = 0).
  { rewrite E0 in Hv. nra. }
  assert (E3 : m10 U * m10 U = 0).
  { apply Rmult_integral in E2. destruct E2 as [E2|E2]; [nra|exact E2]. }
  assert (E4 : m10 U = 0) by nra.
  split; [reflexivity|]. split; [exact E4|].
  assert (E5 : (m00 U - 1) * (m00 U + 1) = 0) by nra.
  apply Rmult_integral in E5. destruct E5; [left|right]; lra.
Qed.

(** With the larger entry second, it is plus or minus the second unit
    vector. *)
Lemma diag_major_second (a d : R) (U Vh : Mat2) (s : R * R) :
  0 <= d < a -> is_svd (mat2 d 0 0 a) (U, s, Vh) ->
  s = (a, d) /\ m00 U = 0 /\ (m10 U = 1 \/ m10 U = -1).
Proof.
  intros Had H. destruct s as [s1 s2].
  pose proof (svd_frob _ _ _ _ _ H) as F.
  pose proof (svd_det_abs _ _ _ _ _ H) as D.
  unfold frob, det in F, D. cbn [m00 m01 m10 m11] in F, D.
  rewrite Rabs_right in D by nra.
  assert (Hord : 0 <= s2 <= s1) by (destruct H as (_ & _ & Hs & _); exact Hs).
  destruct (pair_determined s1 s2 a d) as [-> ->]; try lra.
  pose proof (svd_first_unit _ _ _ _ H) as Hu.
  pose proof (svd_first_row_unit _ _ _ _ H) as Hv.
  destruct (svd_first_axis _ _ _ _ _ H) as [Hx Hy].
  cbn [m00 m01 m10 m11] in Hx, Hy.
  assert (E0 : m01 Vh = m10 U) by nra.
  assert (Hx' : a * m00 U = d * m00 Vh) by lra.
  assert (E1 : a * a * (m00 U * m00 U) = d * d * (m00 Vh * m00 Vh)).
  { transitivity (a * m00 U * (a * m00 U)); [ring|rewrite Hx'; ring]. }
  assert (E2 : (a * a - d * d) * (m00 U * m00 U) = 0).
  { rewrite E0 in Hv. nra. }
  assert (E3 : m00 U * m00 U = 0).
  { apply Rmult_integral in E2. destruct E2 as [E2|E2]; [nra|exact E2]. }
  assert (E4 : m00 U = 0) by nra.
  split; [reflexivity|]. split; [exact E4|].
  assert (E5 : (m10 U - 1) * (m10 U + 1) = 0) by nra.
  apply Rmult_integral in E5. destruct E5; [left|right]; lra.
Qed.

End SvdFacts.

(** ** Eigenvalues of a symmetric array and its singular values *)

Module EigFacts.
Import SvdFacts.

Lemma eig_radius_nonneg (A : Mat2) : 0 <= eig_radius A.
Proof. apply sqrt_pos. Qed.

Lemma eig_radius_sq (A : Mat2) :
  eig_radius A * eig_radius A =
  (m00 A - m11 A) / 2 * ((m00 A - m11 A) / 2) + m01 A * m01 A.
Proof.
  unfold eig_radius. apply sqrt_sqrt.
  pose proof (Rle_0_sqr ((m00 A - m11 A) / 2)).
  pose proof (Rle_0_sqr (m01 A)). unfold Rsqr in *. lra.
Qed.

Lemma lambda_order (A : Mat2) : lambda_min A <= lambda_max A.
Proof.
  unfold lambda_min, lambda_max. pose proof (eig_radius_nonneg A). lra.
Qed.

Lemma lambda_sum (A : Mat2) : lambda_max A + lambda_min A = m00 A + m11 A.
Proof. unfold lambda_min, lambda_max. lra. Qed.

Lemma lambda_prod (A : Mat2) :
  symmetric A -> lambda_max A * lambda_min A = det A.
Proof.
  intros Hsym. unfold lambda_min, lambda_max, det. rewrite <- Hsym.
  pose proof (eig_radius_sq A). nra.
Qed.

Lemma lambda_frob (A : Mat2) :
  symmetric A ->
  lambda_max A * lambda_max A + lambda_min A * lambda_min A = frob A.
Proof.
  intros Hsym. unfold lambda_min, lambda_max, frob. rewrite <- Hsym.
  pose proof (eig_radius_sq A). nra.
Qed.

(** The eigenvalues of a positive semi-definite matrix are non-negative. *)
Lemma psd_lambda_min (A : Mat2) : psd A -> 0 <= lambda_min A.
Proof.
  intros (Hsym & Ha & Hd & Hdet).
  pose proof (lambda_prod A Hsym) as Hp. pose proof (lambda_sum A) as Hs.
  pose proof (lambda_order A) as Ho.
  destruct (Rle_dec 0 (lambda_min A)) as [|Hn]; [assumption|].
  exfalso. apply Rnot_le_lt in Hn.
  destruct (Rle_dec (lambda_max A) 0); nra.
Qed.

(** The singular values of a symmetric array are the absolute values of its
    eigenvalues, larger first. *)
Lemma sym_singular_values (A U Vh : Mat2) (s1 s2 : R) :
  symmetric A -> is_svd A (U, (s1, s2), Vh) ->
  s1 = Rmax (Rabs (lambda_max A)) (Rabs (lambda_min A)) /\
  s2 = Rmin (Rabs (lambda_max A)) (Rabs (lambda_min A)).
Proof.
  intros Hsym H.
  pose proof (svd_frob _ _ _ _ _ H) as Hf.
  pose proof (svd_det_abs _ _ _ _ _ H) as Hd.
  destruct H as (_ & _ & Hs & _). cbn [fst snd] in Hs.
  rewrite <- (lambda_frob A Hsym) in Hf.
  rewrite <- (lambda_prod A Hsym), Rabs_mult in Hd.
  set (p := lambda_max A) in *. set (q := lambda_min A) in *.
  pose proof (Rabs_pos p). pose proof (Rabs_pos q).
  assert (Hpp : Rabs p * Rabs p = p * p).
  { rewrite <- Rabs_mult. apply Rabs_right. nra. }
  assert (Hqq : Rabs q * Rabs q = q * q).
  { rewrite <- Rabs_mult. apply Rabs_right. nra. }
  apply pair_determined.
  - exact Hs.
  - unfold Rmax, Rmin. destruct (Rle_dec (Rabs p) (Rabs q)); lra.
  - unfold Rmax, Rmin. destruct (Rle_dec (Rabs p) (Rabs q)); lra.
  - unfold Rmax, Rmin. destruct (Rle_dec (Rabs p) (Rabs q)); lra.
Qed.

(** For a covariance matrix they are the eigenvalues themselves. *)
Lemma psd_singular_values (A U Vh : Mat2) (s1 s2 : R) :
  psd A -> is_svd A (U, (s1, s2), Vh) ->
  s1 = lambda_max A /\ s2 = lambda_min A.
Proof.
  intros Hpsd H. pose proof (psd_lambda_min A Hpsd) as Hq.
  pose proof (lambda_order A) as Ho.
  destruct (sym_singular_values A U Vh s1 s2 (proj1 Hpsd) H) as [-> ->].
  rewrite !Rabs_right by lra.
  rewrite Rmax_left, Rmin_right by lra. split; reflexivity.
Qed.

Lemma row_cov_symmetric (r : Row) : symmetric (row_cov r).
Proof. reflexivity. Qed.

(** The invariant of the data model: a valid point has a positive
    semi-definite covariance matrix. *)
Lemma valid_psd (r : Row) : valid r -> psd (row_cov r).
Proof.
  intros (Hx & Hy & Hr1 & Hr2).
  unfold psd, symmetric, det, row_cov. cbn [m00 m01 m10 m11].
  repeat split; try nra.
  assert (0 <= 1 - pxy r * pxy r) by nra.
  assert (0 <= sx r * sx r * (sy r * sy r)) by nra.
  nra.
Qed.

Lemma eig_radius_eq (A : Mat2) (v : R) :
  0 <= v ->
  v * v = (m00 A - m11 A) / 2 * ((m00 A - m11 A) / 2) + m01 A * m01 A ->
  eig_radius A = v.
Proof.
  intros Hv Hsq. pose proof (eig_radius_nonneg A). pose proof (eig_radius_sq A).
  apply Rsqr_inj; [assumption|assumption|]. unfold Rsqr. lra.
Qed.

End EigFacts.

(** ** The two functions, step by step *)

Module CodeFacts.
Import NumpyFacts SvdFacts EigFacts.

Section WithSvd.

Variable svd : Mat2 -> result svd_out.

Lemma cov_to_ellipse_returned cov pos kw U s Vh :
  svd cov = Returned (U, s, Vh) ->
  cov_to_ellipse svd cov pos kw =
  Returned (mkEllipse pos (2 * Numpy.sqrt (fst s)) (2 * Numpy.sqrt (snd s))
              (Numpy.degrees (Numpy.arctan2 (at2 U 1 0) (at2 U 0 0))) kw).
Proof. intros H. unfold cov_to_ellipse. rewrite H. reflexivity. Qed.

Lemma cov_to_ellipse_raised cov pos kw e :
  svd cov = Raised e -> cov_to_ellipse svd cov pos kw = Raised e.
Proof. intros H. unfold cov_to_ellipse. rewrite H. reflexivity. Qed.

Lemma cov_to_ellipse_xy cov pos kw e :
  cov_to_ellipse svd cov pos kw = Returned e -> xy e = pos.
Proof.
  unfold cov_to_ellipse. destruct (svd cov) as [[[U s] Vh]|e']; cbn.
  - intros H. injection H as <-. reflexivity.
  - discriminate.
Qed.

Lemma drawn_length kw t es : drawn svd kw t es -> length es = length t.
Proof. intros H. symmetry. exact (Forall2_length H). Qed.

Lemma drawn_centers kw t es : drawn svd kw t es -> map xy es = map center t.
Proof.
  induction 1 as [|r e t es Hre _ IH]; [reflexivity|].
  cbn [map]. rewrite IH. f_equal. exact (cov_to_ellipse_xy _ _ _ _ Hre).
Qed.

(** When the decomposition returns for every row, the loop runs to its end
    and adds one ellipse per row, in the order of the rows. *)
Lemma plot_rows_complete kw t : forall ax,
  Forall (fun r => exists d, svd (row_cov r) = Returned d) t ->
  exists es, plot_rows svd t kw ax = (Returned tt, ax ++ es) /\ drawn svd kw t es.
Proof.
  induction t as [|r t IH]; intros ax Hall.
  - exists []. rewrite app_nil_r. split; [reflexivity|constructor].
  - inversion Hall as [|r' t' [[[U s] Vh] Hd] Hrest]; subst.
    pose proof (cov_to_ellipse_returned _ (x r, y r) kw _ _ _ Hd) as He.
    match type of He with _ = Returned ?el =>
      destruct (IH (add_artist ax el) Hrest) as (es & Hrun & Hes);
      exists (el :: es)
    end. cbn [plot_rows]. rewrite He. split.
    + rewrite Hrun. unfold add_artist. rewrite <- app_assoc. reflexivity.
    + constructor; [exact He|exact Hes].
Qed.

(** When the decomposition raises at a row, the loop stops there: the
    exception leaves [plot_rows], the earlier rows have their ellipses and
    the later rows are not looked at. *)
Lemma plot_rows_abort kw t1 r t2 e : forall ax,
  Forall (fun r => exists d, svd (row_cov r) = Returned d) t1 ->
  svd (row_cov r) = Raised e ->
  exists es, plot_rows svd (t1 ++ r :: t2) kw ax = (Raised e, ax ++ es) /\
             drawn svd kw t1 es.
Proof.
  induction t1 as [|r1 t1 IH]; intros ax Hall Hr.
  - exists []. rewrite app_nil_r. cbn [app plot_rows].
    rewrite (cov_to_ellipse_raised _ _ _ _ Hr). split; [reflexivity|constructor].
  - inversion Hall as [|r' t' [[[U s] Vh] Hd] Hrest]; subst.
    pose proof (cov_to_ellipse_returned _ (x r1, y r1) kw _ _ _ Hd) as He.
    match type of He with _ = Returned ?el =>
      destruct (IH (add_artist ax el) Hrest Hr) as (es & Hrun & Hes);
      exists (el :: es)
    end. cbn [app plot_rows]. rewrite He. split.
    + rewrite Hrun. unfold add_artist. rewrite <- app_assoc. reflexivity.
    + constructor; [exact He|exact Hes].
Qed.

Lemma svd_ok_returns a : svd_ok svd a -> exists d, svd a = Returned d.
Proof. intros (d & Hd & _). exists d. exact Hd. Qed.

End WithSvd.

Lemma all_return svd t :
  Forall (fun r => svd_ok svd (row_cov r)) t ->
  Forall (fun r => exists d, svd (row_cov r) = Returned d) t.
Proof.
  intros H. eapply Forall_impl; [|exact H].
  intros r Hr. exact (svd_ok_returns _ _ Hr).
Qed.

Lemma drawn_nth svd kw t es :
  drawn svd kw t es ->
  forall i r, nth_error t i = Some r ->
  exists e, nth_error es i = Some e /\ xy e = (x r, y r).
Proof.
  induction 1 as [|r0 e0 t es Hre _ IH]; intros i r Hi.
  - destruct i; discriminate.
  - destruct i as [|i]; cbn [nth_error] in *.
    + injection Hi as <-. exists e0. split; [reflexivity|].
      exact (cov_to_ellipse_xy _ _ _ _ _ Hre).
    + exact (IH i r Hi).
Qed.

Lemma row_cov_uncorrelated (r : Row) :
  pxy r = 0 -> row_cov r = mat2 (sx r * sx r) 0 0 (sy r * sy r).
Proof. intros H. unfold row_cov. rewrite H. f_equal; ring. Qed.


Lemma validb_valid (r : Row) : validb r = true <-> valid r.
Proof.
  unfold validb, valid.
  destruct (Rle_dec 0 (sx r)); [|split; [discriminate|tauto]].
  destruct (Rle_dec 0 (sy r)); [|split; [discriminate|tauto]].
  destruct (Rle_dec (-1) (pxy r)); [|split; [discriminate|tauto]].
  destruct (Rle_dec (pxy r) 1); [|split; [discriminate|tauto]].
  tauto.
Qed.

(** The axes of the ellipse of a symmetric array, positive semi-definite or
    not. *)
Lemma sym_axes svd cov pos kw :
  symmetric cov -> svd_ok svd cov ->
  exists e,
    cov_to_ellipse svd cov pos kw = Returned e /\ xy e = pos /\
    width e =
      2 * sqrt (Rmax (Rabs (lambda_max cov)) (Rabs (lambda_min cov))) /\
    height e =
      2 * sqrt (Rmin (Rabs (lambda_max cov)) (Rabs (lambda_min cov))).
Proof.
  intros Hsym ([[U [s1 s2]] Vh] & Hd & Hok).
  eexists. split; [exact (cov_to_ellipse_returned _ _ _ _ _ _ _ Hd)|].
  cbn [xy width height fst snd].
  destruct (sym_singular_values cov U Vh s1 s2 Hsym Hok) as [-> ->].
  repeat split; reflexivity.
Qed.

(** The axes of the ellipse of an uncorrelated point. *)
Lemma uncorrelated_axes svd r pos kw :
  0 <= sx r -> 0 <= sy r -> pxy r = 0 -> svd_ok svd (row_cov r) ->
  exists e,
    cov_to_ellipse svd (row_cov r) pos kw = Returned e /\
    width e = 2 * Rmax (sx r) (sy r) /\ height e = 2 * Rmin (sx r) (sy r).
Proof.
  intros Hx Hy Hrho ([[U [s1 s2]] Vh] & Hd & Hok).
  eexists. split; [exact (cov_to_ellipse_returned _ _ _ _ _ _ _ Hd)|].
  cbn [width height fst snd]. unfold Numpy.sqrt.
  pose proof (svd_frob _ _ _ _ _ Hok) as F.
  pose proof (svd_det_abs _ _ _ _ _ Hok) as D.
  rewrite (row_cov_uncorrelated r Hrho) in F, D.
  unfold frob, det in F, D. cbn [m00 m01 m10 m11] in F, D.
  rewrite Rabs_right in D by nra.
  assert (Hord : 0 <= s2 <= s1) by (destruct Hok as (_ & _ & Hs & _); exact Hs).
  unfold Rmax, Rmin. destruct (Rle_dec (sx r) (sy r)) as [Hle|Hle].
  - destruct (pair_determined s1 s2 (sy r * sy r) (sx r * sx r)) as [-> ->];
      try nra.
    rewrite !sqrt_sq by lra. split; reflexivity.
  - destruct (pair_determined s1 s2 (sx r * sx r) (sy r * sy r)) as [-> ->];
      try nra.
    rewrite !sqrt_sq by lra. split; reflexivity.
Qed.

End CodeFacts.

(** ** The reference decomposition meets the contract *)

Module RefSvd.
Import EigFacts.

Lemma sgn_sq (v : R) : sgn v * sgn v = 1.
Proof. unfold sgn. destruct (Rle_dec 0 v); ring. Qed.

Lemma sgn_abs (v : R) : Rabs v = sgn v * v.
Proof.
  unfold sgn. destruct (Rle_dec 0 v).
  - rewrite Rabs_right by lra. ring.
  - rewrite Rabs_left by lra. ring.
Qed.

(** [eig_dir A] is a unit vector that [A] maps to [lambda_max A] times
    itself. *)
Lemma eig_dir_spec (A : Mat2) (c s : R) :
  eig_dir A = (c, s) ->
  c * c + s * s = 1 /\
  m00 A * c + m01 A * s = lambda_max A * c /\
  m01 A * c + m11 A * s = lambda_max A * s.
Proof.
  unfold eig_dir, lambda_max.
  pose proof (eig_radius_sq A) as Hr. pose proof (eig_radius_nonneg A) as Hr0.
  set (r := eig_radius A) in *. set (h := (m00 A - m11 A) / 2) in *.
  replace ((m00 A + m11 A) / 2) with (m11 A + h) by (unfold h; lra).
  assert (Hh : m00 A = m11 A + 2 * h) by (unfold h; lra).
  clearbody r h.
  destruct (Req_dec_T (m01 A) 0) as [Hb|Hb].
  - rewrite Hb in *. destruct (Rle_dec 0 h) as [Hh0|Hh0].
    + intros E. injection E as <- <-. assert (r = h) by nra. nra.
    + intros E. injection E as <- <-. assert (r = - h) by nra. nra.
  - assert (Hbb : 0 < m01 A * m01 A) by nra.
    assert (Hrh : 0 < r + h) by nra.
    set (n := sqrt ((r + h) * (r + h) + m01 A * m01 A)).
    assert (Hn2 : n * n = (r + h) * (r + h) + m01 A * m01 A).
    { unfold n. apply sqrt_sqrt. nra. }
    assert (Hn : 0 < n).
    { unfold n. apply sqrt_lt_R0. nra. }
    intros E. injection E as <- <-.
    assert (Hi : / n * n = 1) by (apply Rinv_l; lra).
    unfold Rdiv. set (ni := / n) in *. rewrite Hh. clearbody ni n.
    split; [|split]; nsatz.
Qed.

Theorem svd_sym_ok (A : Mat2) : symmetric A -> svd_ok svd_sym A.
Proof.
  intros Hsym. unfold svd_ok, svd_sym.
  destruct (eig_dir A) as [c s] eqn:Edir.
  destruct (eig_dir_spec A c s Edir) as (Hcs & He1 & He2).
  pose proof (lambda_sum A) as Hsum.
  pose proof (sgn_sq (lambda_max A)) as Hp2.
  pose proof (sgn_sq (lambda_min A)) as Hq2.
  pose proof (Rabs_pos (lambda_max A)) as Hp0.
  pose proof (Rabs_pos (lambda_min A)) as Hq0.
  unfold symmetric in Hsym.
  destruct A as [a b b' d]. cbn [m00 m01 m10 m11] in *. subst b'.
  destruct (Rle_dec (Rabs (lambda_min (mat2 a b b d)))
                    (Rabs (lambda_max (mat2 a b b d)))) as [Hle|Hle];
    eexists; (split; [reflexivity|]);
    unfold is_svd, unitary, mmul, mtrans, mid, mdiag;
    cbn [m00 m01 m10 m11 fst snd];
    (split; [split; f_equal; nsatz|]);
    (split; [split; f_equal; nsatz|]);
    (split; [lra|]);
    rewrite !sgn_abs;
    set (p := lambda_max (mat2 a b b d)) in *;
    set (q := lambda_min (mat2 a b b d)) in *;
    set (sp := sgn p) in *; set (sq := sgn q) in *;
    f_equal; nsatz.
Qed.

(** Changing the sign of both factors keeps the contract. *)
Lemma is_svd_flip (A U Vh : Mat2) (s : R * R) :
  is_svd A (U, s, Vh) -> is_svd A (mscale (-1) U, s, mscale (-1) Vh).
Proof.
  intros H. destruct U as [u00 u01 u10 u11], Vh as [v00 v01 v10 v11].
  destruct s as [s1 s2]. svd_unpack H.
  unfold is_svd, unitary, mmul, mtrans, mid, mdiag, mscale.
  cbn [m00 m01 m10 m11 fst snd].
  repeat split; try (f_equal; nsatz); try lra.
  subst A. f_equal; ring.
Qed.

Theorem svd_flip_ok (A : Mat2) : symmetric A -> svd_ok svd_flip A.
Proof.
  intros Hsym. destruct (svd_sym_ok A Hsym) as ([[U s] Vh] & Hd & Hok).
  unfold svd_ok, svd_flip. rewrite Hd. cbn.
  eexists. split; [reflexivity|]. apply is_svd_flip. exact Hok.
Qed.

(** [svd_sym] returns the first unit vector as the first column of [U] for
    a diagonal matrix whose first entry is the larger one. *)
Lemma left_vector_sym_diag (A : Mat2) :
  m01 A = 0 -> 0 <= m11 A <= m00 A -> left_vector svd_sym A = Some (1, 0).
Proof.
  intros Hb Hda. unfold left_vector, svd_sym, eig_dir.
  destruct (Req_dec_T (m01 A) 0) as [_|Hn]; [|destruct (Hn Hb)].
  destruct (Rle_dec 0 ((m00 A - m11 A) / 2)) as [_|Hn]; [|exfalso; lra].
  destruct (Rle_dec (Rabs (lambda_min A)) (Rabs (lambda_max A))) as [_|Hn].
  - reflexivity.
  - exfalso. apply Hn. pose proof (eig_radius_nonneg A).
    unfold lambda_min, lambda_max.
    rewrite (Rabs_right ((m00 A + m11 A) / 2 + eig_radius A)) by lra.
    apply Rabs_le. lra.
Qed.






End RefSvd.

(** ** The sample rows *)

Module Samples.
Import NumpyFacts SvdFacts EigFacts CodeFacts RefSvd.

Lemma valid_r31 : valid r31.
Proof. unfold valid, r31. cbn [sx sy pxy]. lra. Qed.

Lemma valid_r13 : valid r13.
Proof. unfold valid, r13. cbn [sx sy pxy]. lra. Qed.

Lemma valid_r_half : valid r_half.
Proof. unfold valid, r_half. cbn [sx sy pxy]. lra. Qed.

Lemma invalid_r15 : ~ valid r15.
Proof. unfold valid, r15. cbn [sx sy pxy]. lra. Qed.

Lemma psd_r31 : psd (row_cov r31).
Proof.
  unfold psd, symmetric, det, row_cov, r31. cbn [m00 m01 m10 m11 sx sy pxy].
  repeat split; lra.
Qed.

Lemma det_r31 : 0 <= det (row_cov r31).
Proof. unfold det, row_cov, r31. cbn [m00 m01 m10 m11 sx sy pxy]. lra. Qed.

Lemma det_r15 : ~ 0 <= det (row_cov r15).
Proof. unfold det, row_cov, r15. cbn [m00 m01 m10 m11 sx sy pxy]. lra. Qed.

Lemma eig_radius_r15 : eig_radius (row_cov r15) = 3 / 2.
Proof.
  apply eig_radius_eq; [lra|].
  unfold row_cov, r15. cbn [m00 m01 m10 m11 sx sy pxy]. lra.
Qed.

Lemma lambda_r15 :
  lambda_max (row_cov r15) = 5 / 2 /\ lambda_min (row_cov r15) = - (1 / 2).
Proof.
  unfold lambda_max, lambda_min. rewrite eig_radius_r15.
  unfold row_cov, r15. cbn [m00 m01 m10 m11 sx sy pxy]. split; lra.
Qed.

Lemma eig_radius_r_half : eig_radius (row_cov r_half) = 1 / 2.
Proof.
  apply eig_radius_eq; [lra|].
  unfold row_cov, r_half. cbn [m00 m01 m10 m11 sx sy pxy]. lra.
Qed.

Lemma lambda_r_half :
  lambda_max (row_cov r_half) = 3 / 2 /\ lambda_min (row_cov r_half) = 1 / 2.
Proof.
  unfold lambda_max, lambda_min. rewrite eig_radius_r_half.
  unfold row_cov, r_half. cbn [m00 m01 m10 m11 sx sy pxy]. split; lra.
Qed.

(** The eigenvector of the larger eigenvalue of [[1, 1/2], [1/2, 1]] lies on
    the diagonal. *)
Lemma eig_dir_r_half :
  exists c, 0 < c /\ eig_dir (row_cov r_half) = (c, c).
Proof.
  unfold eig_dir. rewrite eig_radius_r_half.
  unfold row_cov, r_half. cbn [m00 m01 m10 m11 sx sy pxy].
  destruct (Req_dec_T (1 / 2 * 1 * 1) 0) as [H|_]; [lra|].
  replace (1 / 2 + (1 ^ 2 - 1 ^ 2) / 2) with (1 / 2) by lra.
  replace (1 / 2 * 1 * 1) with (1 / 2) by lra.
  set (n := sqrt (1 / 2 * (1 / 2) + 1 / 2 * (1 / 2))).
  assert (Hn : 0 < n) by (unfold n; apply sqrt_lt_R0; lra).
  exists (1 / 2 / n). split; [|reflexivity].
  apply Rdiv_lt_0_compat; lra.
Qed.

Lemma svd_sym_r31 : svd_ok svd_sym (row_cov r31).
Proof. apply svd_sym_ok. reflexivity. Qed.

Lemma svd_sym_r13 : svd_ok svd_sym (row_cov r13).
Proof. apply svd_sym_ok. reflexivity. Qed.

(** What [svd_flip] returns for the covariance matrix of [r_half]: both
    entries of the first column of [U] are the same negative number. *)
Lemma svd_flip_r_half :
  exists c U s Vh,
    0 < c /\ svd_flip (row_cov r_half) = Returned (U, s, Vh) /\
    at2 U 0 0 = - c /\ at2 U 1 0 = - c.
Proof.
  destruct eig_dir_r_half as (c & Hc & Edir).
  destruct lambda_r_half as [Hp Hq].
  unfold svd_flip, svd_sym. rewrite Edir, Hp, Hq.
  destruct (Rle_dec (Rabs (1 / 2)) (Rabs (3 / 2))) as [_|Hn].
  - cbn. exists c. do 3 eexists. split; [exact Hc|].
    split; [reflexivity|]. cbn. split; ring.
  - exfalso. apply Hn. rewrite !Rabs_right by lra. lra.
Qed.


Lemma svd_picky_r31 : svd_ok svd_picky (row_cov r31).
Proof.
  unfold svd_ok, svd_picky. destruct (Rle_dec 0 (det (row_cov r31))) as [|H].
  - apply svd_sym_ok. reflexivity.
  - destruct (H det_r31).
Qed.

Lemma svd_picky_r15 : svd_picky (row_cov r15) = Raised "LinAlgError"%string.
Proof.
  unfold svd_picky. destruct (Rle_dec 0 (det (row_cov r15))) as [H|].
  - destruct (det_r15 H).
  - reflexivity.
Qed.

(** The specification's concrete scenario: the point [(0, 0)] with [sx = 3],
    [sy = 1], [rho = 0] has the ellipse of width 6, height 2 and angle 0
    under the reference decomposition. *)
Example scenario_3_1 :
  cov_to_ellipse svd_sym (row_cov r31) (center r31) [] =
  Returned (mkEllipse (0, 0) 6 2 0 []).
Proof.
  destruct svd_sym_r31 as ([[U s] Vh] & Hd & Hok).
  pose proof (left_vector_sym_diag (row_cov r31)) as HU.
  unfold left_vector in HU. rewrite Hd in HU. cbn [at2] in HU.
  assert (E : Some (m00 U, m10 U) = Some (1, 0)) by (apply HU; cbn; lra).
  injection E as E00 E10.
  rewrite (row_cov_uncorrelated r31 eq_refl) in Hok.
  assert (Had : 0 <= sy r31 * sy r31 < sx r31 * sx r31) by (cbn; lra).
  destruct (diag_major_first _ _ _ _ _ Had Hok) as (-> & _ & _).
  rewrite (cov_to_ellipse_returned _ _ _ _ _ _ _ Hd).
  cbn [fst snd at2 center r31 x y sx sy]. rewrite E00, E10.
  rewrite (arctan2_pos_axis 1) by lra. rewrite degrees_0.
  unfold Numpy.sqrt. rewrite !sqrt_sq by lra.
  f_equal. f_equal; ring.
Qed.

End Samples.

(** ** The claims of the specification *)

Module Claims.
Import NumpyFacts SvdFacts EigFacts CodeFacts RefSvd Samples.

(** C1, as the specification states it, fails at its own example: with
    [sx = sy = 1] and [rho = 1.5] the covariance matrix has the eigenvalue
    [-1/2], and [cov_to_ellipse] returns an ellipse, of width
    [2 * sqrt(5/2)] and height [2 * sqrt(1/2)]; it does not raise
    [InvalidCovariance]. *)
Lemma rho_15_returns_an_ellipse :
  lambda_min (row_cov r15) < 0 /\
  svd_ok svd_sym (row_cov r15) /\
  (exists e,
     cov_to_ellipse svd_sym (row_cov r15) (center r15) [] = Returned e /\
     width e = 2 * sqrt (5 / 2) /\
     height e = 2 * sqrt (1 / 2)) /\
  cov_to_ellipse svd_sym (row_cov r15) (center r15) [] <>
    Raised InvalidCovariance.
Proof.
  destruct lambda_r15 as [Hp Hq].
  assert (Hok : svd_ok svd_sym (row_cov r15)) by (apply svd_sym_ok; reflexivity).
  destruct (sym_axes svd_sym (row_cov r15) (center r15) [] eq_refl Hok)
    as (e & He & _ & Hw & Hh).
  split; [lra|]. split; [exact Hok|]. split.
  - exists e. split; [exact He|].
    rewrite Hw, Hh, Hp, Hq. rewrite Rabs_Ropp, !Rabs_right by lra.
    rewrite Rmax_left, Rmin_right by lra. split; reflexivity.
  - rewrite He. discriminate.
Qed.

(** C1, amended.  [cov_to_ellipse] does not check its input.  For a
    symmetric array with a negative eigenvalue on which the decomposition
    returns, it returns an ellipse at [pos]; the width and the height are
    [2 * sqrt] of the absolute values of the two eigenvalues, the larger
    first, so both are real and non-negative. *)
Theorem negative_eigenvalue_returns svd cov pos kw :
  symmetric cov -> lambda_min cov < 0 -> svd_ok svd cov ->
  exists e,
    cov_to_ellipse svd cov pos kw = Returned e /\
    xy e = pos /\
    width e =
      2 * sqrt (Rmax (Rabs (lambda_max cov)) (- lambda_min cov)) /\
    height e =
      2 * sqrt (Rmin (Rabs (lambda_max cov)) (- lambda_min cov)) /\
    0 <= height e <= width e.
Proof.
  intros Hsym Hneg Hok.
  destruct (sym_axes svd cov pos kw Hsym Hok) as (e & He & Hxy & Hw & Hh).
  rewrite (Rabs_left (lambda_min cov)) in Hw, Hh by exact Hneg.
  exists e. repeat split; try assumption.
  - rewrite Hh. pose proof (sqrt_pos
      (Rmin (Rabs (lambda_max cov)) (- lambda_min cov))). lra.
  - rewrite Hh, Hw. apply Rmult_le_compat_l; [lra|].
    apply sqrt_le_1.
    + apply Rmin_glb; [apply Rabs_pos|lra].
    + apply Rle_trans with (- lambda_min cov); [lra|apply Rmax_r].
    + apply Rle_trans with (- lambda_min cov); [apply Rmin_r|apply Rmax_r].
Qed.

Lemma negative_eigenvalue_returns_witness :
  symmetric (row_cov r15) /\ lambda_min (row_cov r15) < 0 /\
  svd_ok svd_sym (row_cov r15) /\
  exists e,
    cov_to_ellipse svd_sym (row_cov r15) (center r15) [] = Returned e /\
    xy e = center r15 /\
    width e =
      2 * sqrt (Rmax (Rabs (lambda_max (row_cov r15)))
                            (- lambda_min (row_cov r15))) /\
    height e =
      2 * sqrt (Rmin (Rabs (lambda_max (row_cov r15)))
                            (- lambda_min (row_cov r15))) /\
    0 <= height e <= width e.
Proof.
  assert (Hneg : lambda_min (row_cov r15) < 0).
  { rewrite (proj2 lambda_r15). lra. }
  split; [reflexivity|]. split; [exact Hneg|].
  split; [apply svd_sym_ok; reflexivity|].
  apply (negative_eigenvalue_returns svd_sym (row_cov r15) (center r15) []).
  - reflexivity.
  - exact Hneg.
  - apply svd_sym_ok. reflexivity.
Defined.

(** C2. For a symmetric positive semi-definite [cov], [cov_to_ellipse]
    works from the decomposition [cov = U diag(s) Vh] that [svd] returns:
    the ellipse is centred at [pos], its angle is [arctan2(U[1,0], U[0,0])]
    in degrees, and its width and height are [2 * sqrt] of the two singular
    values, which are the two eigenvalues of [cov] (the variances along the
    principal axes). *)
Theorem cov_to_ellipse_by_svd svd cov pos kw :
  psd cov -> svd_ok svd cov ->
  exists U s Vh e,
    svd cov = Returned (U, s, Vh) /\
    cov = mmul (mmul U (mdiag s)) Vh /\
    cov_to_ellipse svd cov pos kw = Returned e /\
    xy e = pos /\
    angle e = Numpy.degrees (Numpy.arctan2 (at2 U 1 0) (at2 U 0 0)) /\
    width e = 2 * Numpy.sqrt (fst s) /\
    height e = 2 * Numpy.sqrt (snd s) /\
    fst s = lambda_max cov /\ snd s = lambda_min cov.
Proof.
  intros Hpsd ([[U [s1 s2]] Vh] & Hd & Hok).
  exists U, (s1, s2), Vh. eexists.
  split; [exact Hd|]. split; [apply Hok|].
  split; [exact (cov_to_ellipse_returned _ _ _ _ _ _ _ Hd)|].
  cbn [xy angle width height fst snd].
  destruct (psd_singular_values cov U Vh s1 s2 Hpsd Hok) as [-> ->].
  repeat split; reflexivity.
Qed.

Lemma cov_to_ellipse_by_svd_witness :
  psd (row_cov r31) /\ svd_ok svd_sym (row_cov r31) /\
  exists U s Vh e,
    svd_sym (row_cov r31) = Returned (U, s, Vh) /\
    row_cov r31 = mmul (mmul U (mdiag s)) Vh /\
    cov_to_ellipse svd_sym (row_cov r31) (0, 0) [] = Returned e /\
    xy e = (0, 0) /\
    angle e = Numpy.degrees (Numpy.arctan2 (at2 U 1 0) (at2 U 0 0)) /\
    width e = 2 * Numpy.sqrt (fst s) /\
    height e = 2 * Numpy.sqrt (snd s) /\
    fst s = lambda_max (row_cov r31) /\ snd s = lambda_min (row_cov r31).
Proof.
  split; [exact psd_r31|]. split; [apply svd_sym_ok; reflexivity|].
  apply (cov_to_ellipse_by_svd svd_sym (row_cov r31) (0, 0) []).
  - exact psd_r31.
  - apply svd_sym_ok. reflexivity.
Defined.

(** C3. For a table of N valid rows (on each of which the decomposition
    returns) [plot_ellipse] returns and adds exactly N ellipses to the axes,
    after the artists that were there, in the order of the rows: the i-th
    new ellipse is centred at [(x, y)] of the i-th row. *)
Theorem plot_ellipse_in_order svd gca t ax kw :
  Forall valid t ->
  Forall (fun r => svd_ok svd (row_cov r)) t ->
  exists es,
    plot_ellipse svd gca t ax kw = (Returned tt, target gca ax ++ es) /\
    length es = length t /\
    forall i r, nth_error t i = Some r ->
      exists e, nth_error es i = Some e /\ xy e = (x r, y r).
Proof.
  intros _ Hall.
  destruct (plot_rows_complete svd kw t (target gca ax) (all_return _ _ Hall))
    as (es & Hrun & Hes).
  exists es. split; [exact Hrun|].
  split; [exact (drawn_length _ _ _ _ Hes)|].
  exact (drawn_nth _ _ _ _ Hes).
Qed.

Lemma plot_ellipse_in_order_witness :
  Forall valid [r31; r_half; r13] /\
  Forall (fun r => svd_ok svd_sym (row_cov r)) [r31; r_half; r13] /\
  exists es,
    plot_ellipse svd_sym [] [r31; r_half; r13] None [] =
      (Returned tt, target [] None ++ es) /\
    length es = length [r31; r_half; r13] /\
    forall i r, nth_error [r31; r_half; r13] i = Some r ->
      exists e, nth_error es i = Some e /\ xy e = (x r, y r).
Proof.
  assert (Hv : Forall valid [r31; r_half; r13]).
  { constructor; [exact valid_r31|]. constructor; [exact valid_r_half|].
    constructor; [exact valid_r13|]. constructor. }
  assert (Hs : Forall (fun r => svd_ok svd_sym (row_cov r)) [r31; r_half; r13]).
  { repeat constructor; apply svd_sym_ok; reflexivity. }
  split; [exact Hv|]. split; [exact Hs|].
  exact (plot_ellipse_in_order svd_sym [] [r31; r_half; r13] None [] Hv Hs).
Defined.

(** C4, as the specification states it, fails on a batch of a valid row and
    the row with [rho = 1.5].  The claim wants a partial result set (the
    ellipses of the rows that pass validation) and a list of failures.
    [plot_ellipse] returns [None]; the axes hold an ellipse for each of the
    two rows, the second one centred at the invalid row, so the ellipses
    are not those of the valid rows. *)
Lemma invalid_row_is_drawn :
  valid r31 /\ ~ valid r15 /\
  Forall (fun r => svd_ok svd_sym (row_cov r)) [r31; r15] /\
  exists e1 e2,
    plot_ellipse svd_sym [] [r31; r15] None [] = (Returned tt, [e1; e2]) /\
    xy e2 = center r15 /\
    map xy [e1; e2] <> map center (filter validb [r31; r15]).
Proof.
  assert (Hs : Forall (fun r => svd_ok svd_sym (row_cov r)) [r31; r15]).
  { repeat constructor; apply svd_sym_ok; reflexivity. }
  split; [exact valid_r31|]. split; [exact invalid_r15|]. split; [exact Hs|].
  destruct (plot_rows_complete svd_sym [] [r31; r15] []
              (all_return _ _ Hs))
    as (es & Hrun & Hes).
  pose proof (drawn_centers _ _ _ _ Hes) as Hc.
  destruct es as [|e1 [|e2 [|e3 es]]]; try discriminate Hc.
  exists e1, e2. split; [exact Hrun|].
  cbn [map] in Hc. injection Hc as _ Hc2. split; [exact Hc2|].
  cbn [filter].
  destruct (validb r31); destruct (validb r15) eqn:E15.
  - apply validb_valid in E15. destruct (invalid_r15 E15).
  - discriminate.
  - apply validb_valid in E15. destruct (invalid_r15 E15).
  - discriminate.
Qed.

(** C4, amended.  [plot_ellipse] validates nothing and keeps no list of
    failures.  When the decomposition returns on every row, each of the N
    rows, valid or not, gets its ellipse, in order.  When the decomposition
    raises at a row, the exception leaves [plot_ellipse]: the batch stops
    there, with the ellipses of the earlier rows on the axes and none for
    the later rows. *)
Theorem plot_ellipse_no_validation svd gca ax kw :
  (forall t,
     Forall (fun r => svd_ok svd (row_cov r)) t ->
     exists es,
       plot_ellipse svd gca t ax kw = (Returned tt, target gca ax ++ es) /\
       map xy es = map center t) /\
  (forall t1 r t2 e,
     Forall (fun r => svd_ok svd (row_cov r)) t1 ->
     svd (row_cov r) = Raised e ->
     exists es,
       plot_ellipse svd gca (t1 ++ r :: t2) ax kw =
         (Raised e, target gca ax ++ es) /\
       map xy es = map center t1).
Proof.
  split.
  - intros t Hall.
    destruct (plot_rows_complete svd kw t (target gca ax)
                (all_return _ _ Hall))
      as (es & Hrun & Hes).
    exists es. split; [exact Hrun|exact (drawn_centers _ _ _ _ Hes)].
  - intros t1 r t2 e Hall Hr.
    destruct (plot_rows_abort svd kw t1 r t2 e (target gca ax)
                (all_return _ _ Hall) Hr)
      as (es & Hrun & Hes).
    exists es. split; [exact Hrun|exact (drawn_centers _ _ _ _ Hes)].
Qed.

Lemma plot_ellipse_no_validation_witness :
  (Forall (fun r => svd_ok svd_sym (row_cov r)) [r31; r15] /\
   exists es,
     plot_ellipse svd_sym [] [r31; r15] None [] =
       (Returned tt, target [] None ++ es) /\
     map xy es = map center [r31; r15]) /\
  (Forall (fun r => svd_ok svd_picky (row_cov r)) [r31] /\
   svd_picky (row_cov r15) = Raised "LinAlgError"%string /\
   exists es,
     plot_ellipse svd_picky [] ([r31] ++ r15 :: [r13]) None [] =
       (Raised "LinAlgError"%string, target [] None ++ es) /\
     map xy es = map center [r31]).
Proof.
  assert (Hs : Forall (fun r => svd_ok svd_sym (row_cov r)) [r31; r15]).
  { repeat constructor; apply svd_sym_ok; reflexivity. }
  assert (Hp : Forall (fun r => svd_ok svd_picky (row_cov r)) [r31]).
  { repeat constructor. exact svd_picky_r31. }
  split.
  - split; [exact Hs|].
    exact (proj1 (plot_ellipse_no_validation svd_sym [] None []) _ Hs).
  - split; [exact Hp|]. split; [exact svd_picky_r15|].
    exact (proj2 (plot_ellipse_no_validation svd_picky [] None [])
             [r31] r15 [r13] _ Hp svd_picky_r15).
Defined.

(** C5, as the specification states it, fails for a valid point: [sx = sy =
    1], [rho = 1/2].  The covariance matrix is [[1, 1/2], [1/2, 1]]; its
    major axis is the diagonal.  A decomposition that meets the contract may
    give the first column of [U] two negative entries (a routine that starts
    with a Householder reflection of the first column does); [arctan2] then
    lies in the third quadrant and the angle is -135 degrees, which is not
    in [0, 180). *)
Lemma angle_minus_135 :
  valid r_half /\ svd_ok svd_flip (row_cov r_half) /\
  exists e,
    cov_to_ellipse svd_flip (row_cov r_half) (center r_half) [] = Returned e /\
    angle e = -135 /\ ~ (0 <= angle e < 180).
Proof.
  split; [exact valid_r_half|]. split; [apply svd_flip_ok; reflexivity|].
  destruct svd_flip_r_half as (c & U & s & Vh & Hc & Hd & H00 & H10).
  eexists. split; [exact (cov_to_ellipse_returned _ _ _ _ _ _ _ Hd)|].
  cbn [angle]. rewrite H00, H10, (NumpyFacts.arctan2_diag_neg c Hc).
  assert (E : Numpy.degrees (- (3 * PI / 4)) = -135).
  { unfold Numpy.degrees. pose proof PI_RGT_0. field. lra. }
  rewrite E. split; [reflexivity|lra].
Qed.

(** C5, amended.  For a valid point the angle of the returned ellipse lies
    in the closed interval [-180, 180], the documented range of [arctan2]
    in degrees: [cov_to_ellipse] passes the angle of the first column of [U]
    on as it is and does not reduce it modulo 180. *)
Theorem angle_range svd r kw :
  valid r -> svd_ok svd (row_cov r) ->
  exists e,
    cov_to_ellipse svd (row_cov r) (center r) kw = Returned e /\
    -180 <= angle e <= 180.
Proof.
  intros _ ([[U s] Vh] & Hd & _).
  eexists. split; [exact (cov_to_ellipse_returned _ _ _ _ _ _ _ Hd)|].
  cbn [angle].
  destruct (NumpyFacts.arctan2_bound (at2 U 1 0) (at2 U 0 0)) as [Hlo Hhi].
  pose proof NumpyFacts.degrees_PI as HPI.
  pose proof (NumpyFacts.degrees_opp PI) as HmPI.
  split.
  - pose proof (NumpyFacts.degrees_lt _ _ Hlo). lra.
  - destruct Hhi as [Hhi|Hhi].
    + pose proof (NumpyFacts.degrees_lt _ _ Hhi). lra.
    + rewrite Hhi. lra.
Qed.

Lemma angle_range_witness :
  valid r_half /\ svd_ok svd_flip (row_cov r_half) /\
  exists e,
    cov_to_ellipse svd_flip (row_cov r_half) (center r_half) [] = Returned e /\
    -180 <= angle e <= 180.
Proof.
  split; [exact valid_r_half|]. split; [apply svd_flip_ok; reflexivity|].
  apply (angle_range svd_flip r_half []).
  - exact valid_r_half.
  - apply svd_flip_ok. reflexivity.
Defined.

(** C6. For a valid point (standard deviations non-negative, correlation in
    [-1, 1]) the width and the height that [cov_to_ellipse] returns are
    non-negative: they are twice the square roots of the eigenvalues of the
    covariance matrix, and these are non-negative. *)
Theorem width_height_nonneg svd r kw :
  valid r -> svd_ok svd (row_cov r) ->
  exists e,
    cov_to_ellipse svd (row_cov r) (center r) kw = Returned e /\
    0 <= width e /\ 0 <= height e /\
    width e = 2 * sqrt (lambda_max (row_cov r)) /\
    height e = 2 * sqrt (lambda_min (row_cov r)) /\
    0 <= lambda_min (row_cov r) <= lambda_max (row_cov r).
Proof.
  intros Hv ([[U [s1 s2]] Vh] & Hd & Hok).
  pose proof (valid_psd r Hv) as Hpsd.
  eexists. split; [exact (cov_to_ellipse_returned _ _ _ _ _ _ _ Hd)|].
  cbn [width height fst snd].
  destruct (psd_singular_values _ U Vh s1 s2 Hpsd Hok) as [-> ->].
  pose proof (np_sqrt_nonneg (lambda_max (row_cov r))).
  pose proof (np_sqrt_nonneg (lambda_min (row_cov r))).
  pose proof (psd_lambda_min _ Hpsd). pose proof (lambda_order (row_cov r)).
  unfold Numpy.sqrt in *. repeat split; lra.
Qed.

Lemma width_height_nonneg_witness :
  valid r_half /\ svd_ok svd_sym (row_cov r_half) /\
  exists e,
    cov_to_ellipse svd_sym (row_cov r_half) (center r_half) [] = Returned e /\
    0 <= width e /\ 0 <= height e /\
    width e = 2 * sqrt (lambda_max (row_cov r_half)) /\
    height e = 2 * sqrt (lambda_min (row_cov r_half)) /\
    0 <= lambda_min (row_cov r_half) <= lambda_max (row_cov r_half).
Proof.
  split; [exact valid_r_half|]. split; [apply svd_sym_ok; reflexivity|].
  apply (width_height_nonneg svd_sym r_half []).
  - exact valid_r_half.
  - apply svd_sym_ok. reflexivity.
Defined.




(** C8, as the specification states it, fails for [sx = 3], [sy = 1],
    [rho = 0] and the exchanged point [sx = 1], [sy = 3]: both ellipses
    have width 6 and height 2.  The width is the major axis in both; the
    two axes do not change roles. *)
Lemma swap_keeps_width_major :
  valid r31 /\ pxy r31 = 0 /\ swap_sigma r31 = r13 /\
  svd_ok svd_sym (row_cov r31) /\ svd_ok svd_sym (row_cov r13) /\
  exists e1 e2,
    cov_to_ellipse svd_sym (row_cov r31) (center r31) [] = Returned e1 /\
    cov_to_ellipse svd_sym (row_cov r13) (center r13) [] = Returned e2 /\
    width e1 = 6 /\ height e1 = 2 /\ width e2 = 6 /\ height e2 = 2 /\
    ~ (height e1 < width e1 -> width e2 < height e2).
Proof.
  split; [exact valid_r31|]. split; [reflexivity|]. split; [reflexivity|].
  split; [exact svd_sym_r31|]. split; [exact svd_sym_r13|].
  destruct (uncorrelated_axes svd_sym r31 (center r31) [])
    as (e1 & He1 & Hw1 & Hh1);
    [cbn; lra|cbn; lra|reflexivity|exact svd_sym_r31|].
  destruct (uncorrelated_axes svd_sym r13 (center r13) [])
    as (e2 & He2 & Hw2 & Hh2);
    [cbn; lra|cbn; lra|reflexivity|exact svd_sym_r13|].
  cbn [r31 r13 sx sy] in Hw1, Hh1, Hw2, Hh2.
  rewrite Rmax_left in Hw1 by lra. rewrite Rmin_right in Hh1 by lra.
  rewrite Rmax_right in Hw2 by lra. rewrite Rmin_left in Hh2 by lra.
  exists e1, e2. repeat split; try assumption; try lra.
Qed.

(** C8, amended.  For a valid point with [rho = 0], exchanging [sx] and
    [sy] leaves the width and the height as they are: the width is twice
    the larger standard deviation and the height twice the smaller one, for
    both points.  What changes is the angle.  When [sx > sy] the major axis
    of the first ellipse lies along x (angle 0 or 180) and that of the
    second along y (angle 90 or -90); when [sx < sy] it is the other way
    round.  The two angles differ by 90 degrees modulo 180. *)
Theorem swap_sigma_turns_axis svd r kw :
  valid r -> pxy r = 0 ->
  svd_ok svd (row_cov r) -> svd_ok svd (row_cov (swap_sigma r)) ->
  exists e e',
    cov_to_ellipse svd (row_cov r) (center r) kw = Returned e /\
    cov_to_ellipse svd (row_cov (swap_sigma r)) (center (swap_sigma r)) kw =
      Returned e' /\
    width e = 2 * Rmax (sx r) (sy r) /\ height e = 2 * Rmin (sx r) (sy r) /\
    width e' = width e /\ height e' = height e /\
    (sy r < sx r ->
       (angle e = 0 \/ angle e = 180) /\ (angle e' = 90 \/ angle e' = -90)) /\
    (sx r < sy r ->
       (angle e = 90 \/ angle e = -90) /\ (angle e' = 0 \/ angle e' = 180)).
Proof.
  intros (Hx & Hy & _) Hrho Hok Hok'.
  destruct (uncorrelated_axes svd r (center r) kw Hx Hy Hrho Hok)
    as (e & He & Hw & Hh).
  destruct (uncorrelated_axes svd (swap_sigma r) (center (swap_sigma r)) kw
              Hy Hx Hrho Hok') as (e' & He' & Hw' & Hh').
  cbn [swap_sigma sx sy] in Hw', Hh'.
  exists e, e'. split; [exact He|]. split; [exact He'|].
  split; [exact Hw|]. split; [exact Hh|].
  split; [rewrite Hw, Hw'; f_equal; apply Rmax_comm|].
  split; [rewrite Hh, Hh'; f_equal; apply Rmin_comm|].
  destruct Hok as ([[U s] Vh] & Hd & Hsvd).
  destruct Hok' as ([[U' s'] Vh'] & Hd' & Hsvd').
  rewrite (cov_to_ellipse_returned _ _ _ _ _ _ _ Hd) in He.
  rewrite (cov_to_ellipse_returned _ _ _ _ _ _ _ Hd') in He'.
  injection He as <-. injection He' as <-. cbn [angle at2].
  rewrite (row_cov_uncorrelated r Hrho) in Hsvd.
  rewrite (row_cov_uncorrelated (swap_sigma r) Hrho) in Hsvd'.
  cbn [swap_sigma sx sy] in Hsvd'.
  pose proof NumpyFacts.degrees_0 as D0.
  pose proof NumpyFacts.degrees_PI as D180.
  pose proof NumpyFacts.degrees_half_PI as D90.
  pose proof (NumpyFacts.degrees_opp (PI / 2)) as Dm90. rewrite D90 in Dm90.
  assert (Hax : forall a d V W t,
            0 <= d < a -> is_svd (mat2 a 0 0 d) (V, t, W) ->
            Numpy.degrees (Numpy.arctan2 (m10 V) (m00 V)) = 0 \/
            Numpy.degrees (Numpy.arctan2 (m10 V) (m00 V)) = 180).
  { intros a d V W t Had H.
    destruct (diag_major_first a d V W t Had H) as (_ & -> & [-> | ->]).
    - left. rewrite NumpyFacts.arctan2_pos_axis by lra. exact D0.
    - right. rewrite NumpyFacts.arctan2_neg_axis by lra. exact D180. }
  assert (Hay : forall a d V W t,
            0 <= d < a -> is_svd (mat2 d 0 0 a) (V, t, W) ->
            Numpy.degrees (Numpy.arctan2 (m10 V) (m00 V)) = 90 \/
            Numpy.degrees (Numpy.arctan2 (m10 V) (m00 V)) = -90).
  { intros a d V W t Had H.
    destruct (diag_major_second a d V W t Had H) as (_ & -> & [-> | ->]).
    - left. rewrite NumpyFacts.arctan2_up by lra. exact D90.
    - right. rewrite NumpyFacts.arctan2_down by lra. exact Dm90. }
  split; intros Hlt.
  - assert (Had : 0 <= sy r * sy r < sx r * sx r) by nra.
    split; [exact (Hax _ _ _ _ _ Had Hsvd)|exact (Hay _ _ _ _ _ Had Hsvd')].
  - assert (Had : 0 <= sx r * sx r < sy r * sy r) by nra.
    split; [exact (Hay _ _ _ _ _ Had Hsvd)|exact (Hax _ _ _ _ _ Had Hsvd')].
Qed.

Lemma swap_sigma_turns_axis_witness :
  valid r31 /\ pxy r31 = 0 /\
  svd_ok svd_sym (row_cov r31) /\ svd_ok svd_sym (row_cov (swap_sigma r31)) /\
  exists e e',
    cov_to_ellipse svd_sym (row_cov r31) (center r31) [] = Returned e /\
    cov_to_ellipse svd_sym (row_cov (swap_sigma r31))
      (center (swap_sigma r31)) [] = Returned e' /\
    width e = 2 * Rmax (sx r31) (sy r31) /\
    height e = 2 * Rmin (sx r31) (sy r31) /\
    width e' = width e /\ height e' = height e /\
    (sy r31 < sx r31 ->
       (angle e = 0 \/ angle e = 180) /\ (angle e' = 90 \/ angle e' = -90)) /\
    (sx r31 < sy r31 ->
       (angle e = 90 \/ angle e = -90) /\ (angle e' = 0 \/ angle e' = 180)).
Proof.
  split; [exact valid_r31|]. split; [reflexivity|].
  split; [exact svd_sym_r31|]. split; [exact svd_sym_r13|].
  apply (swap_sigma_turns_axis svd_sym r31 []).
  - exact valid_r31.
  - reflexivity.
  - exact svd_sym_r31.
  - exact svd_sym_r13.
Defined.

(** C9. With [sx = sy = 0] and any correlation the covariance matrix is the
    zero matrix; when the decomposition returns, [cov_to_ellipse] returns an
    ellipse, and its width and height are both 0. *)
Theorem zero_sigma_zero_axes svd r kw :
  sx r = 0 -> sy r = 0 -> svd_ok svd (row_cov r) ->
  exists e,
    cov_to_ellipse svd (row_cov r) (center r) kw = Returned e /\
    width e = 0 /\ height e = 0.
Proof.
  intros Hx Hy ([[U [s1 s2]] Vh] & Hd & Hok).
  eexists. split; [exact (cov_to_ellipse_returned _ _ _ _ _ _ _ Hd)|].
  cbn [width height fst snd].
  pose proof (svd_frob _ _ _ _ _ Hok) as Hf.
  destruct Hok as (_ & _ & Hs & _). cbn [fst snd] in Hs.
  unfold frob, row_cov in Hf. cbn [m00 m01 m10 m11] in Hf.
  rewrite Hx, Hy in Hf.
  assert (s1 = 0) by nra. assert (s2 = 0) by nra. subst s1 s2.
  unfold Numpy.sqrt. rewrite sqrt_0. split; ring.
Qed.

Lemma zero_sigma_zero_axes_witness :
  sx r00 = 0 /\ sy r00 = 0 /\ svd_ok svd_sym (row_cov r00) /\
  exists e,
    cov_to_ellipse svd_sym (row_cov r00) (center r00) [] = Returned e /\
    width e = 0 /\ height e = 0.
Proof.
  split; [reflexivity|]. split; [reflexivity|].
  split; [apply svd_sym_ok; reflexivity|].
  apply (zero_sigma_zero_axes svd_sym r00 []).
  - reflexivity.
  - reflexivity.
  - apply svd_sym_ok. reflexivity.
Defined.

(** C10. For every 2x2 array on which the decomposition returns, the width
    is at least the height: the width comes from the first singular value,
    which is the larger one.  The angle is the polar angle of the first
    column of [U], and this column is the axis of the first (larger)
    singular value: [cov] maps the first row of [Vh] to [s[0]] times it. *)
Theorem width_is_major_axis svd cov pos kw :
  svd_ok svd cov ->
  exists U s Vh e,
    svd cov = Returned (U, s, Vh) /\
    cov_to_ellipse svd cov pos kw = Returned e /\
    height e <= width e /\
    width e = 2 * Numpy.sqrt (fst s) /\
    height e = 2 * Numpy.sqrt (snd s) /\
    snd s <= fst s /\
    cos (Numpy.radians (angle e)) = at2 U 0 0 /\
    sin (Numpy.radians (angle e)) = at2 U 1 0 /\
    m00 cov * m00 Vh + m01 cov * m01 Vh = fst s * at2 U 0 0 /\
    m10 cov * m00 Vh + m11 cov * m01 Vh = fst s * at2 U 1 0.
Proof.
  intros ([[U [s1 s2]] Vh] & Hd & Hok).
  exists U, (s1, s2), Vh. eexists.
  split; [exact Hd|].
  split; [exact (cov_to_ellipse_returned _ _ _ _ _ _ _ Hd)|].
  cbn [width height angle fst snd at2].
  rewrite NumpyFacts.radians_degrees.
  destruct (NumpyFacts.arctan2_polar (m10 U) (m00 U)
              (svd_first_unit _ _ _ _ Hok)) as [Hc Hs].
  destruct (svd_first_axis _ _ _ _ _ Hok) as [Hx Hy].
  destruct Hok as (_ & _ & Hord & _). cbn [fst snd] in Hord.
  assert (Hsq : sqrt s2 <= sqrt s1) by (apply sqrt_le_1; lra).
  unfold Numpy.sqrt. repeat split; try assumption; lra.
Qed.

Lemma width_is_major_axis_witness :
  svd_ok svd_sym (row_cov r15) /\
  exists U s Vh e,
    svd_sym (row_cov r15) = Returned (U, s, Vh) /\
    cov_to_ellipse svd_sym (row_cov r15) (0, 0) [] = Returned e /\
    height e <= width e /\
    width e = 2 * Numpy.sqrt (fst s) /\
    height e = 2 * Numpy.sqrt (snd s) /\
    snd s <= fst s /\
    cos (Numpy.radians (angle e)) = at2 U 0 0 /\
    sin (Numpy.radians (angle e)) = at2 U 1 0 /\
    m00 (row_cov r15) * m00 Vh + m01 (row_cov r15) * m01 Vh = fst s * at2 U 0 0 /\
    m10 (row_cov r15) * m00 Vh + m11 (row_cov r15) * m01 Vh = fst s * at2 U 1 0.
Proof.
  split; [apply svd_sym_ok; reflexivity|].
  apply (width_is_major_axis svd_sym (row_cov r15) (0, 0) []).
  apply svd_sym_ok. reflexivity.
Defined.

End Claims.

(** ** More on [plot_ellipse]: what it returns, raises and draws *)

Module PlotFacts.
Import NumpyFacts SvdFacts EigFacts CodeFacts RefSvd Samples.

(** X1. Drawing the rows of [t1 ++ t2] is drawing those of [t1] and then
    those of [t2] on the same axes; when the first part raises, the second
    part is not started. *)
Theorem plot_ellipse_app svd gca t1 t2 ax kw :
  plot_ellipse svd gca (t1 ++ t2) ax kw =
  match plot_ellipse svd gca t1 ax kw with
  | (Returned _, ax1) => plot_ellipse svd gca t2 (Some ax1) kw
  | (Raised e, ax1) => (Raised e, ax1)
  end.
Proof.
  assert (H : forall ax0,
    plot_rows svd (t1 ++ t2) kw ax0 =
    match plot_rows svd t1 kw ax0 with
    | (Returned _, ax1) => plot_rows svd t2 kw ax1
    | (Raised e, ax1) => (Raised e, ax1)
    end).
  { induction t1 as [|r t1 IH]; intros ax0; cbn [app plot_rows].
    - reflexivity.
    - destruct (cov_to_ellipse svd (row_cov r) (x r, y r) kw) as [el|e].
      + apply IH.
      + reflexivity. }
  unfold plot_ellipse. apply H.
Qed.

(** X2. [plot_ellipse] returns exactly when the call of [cov_to_ellipse]
    returns for every row of the table: the loop swallows no exception of
    the call and adds none. *)
Theorem plot_ellipse_returns_iff svd gca t ax kw :
  fst (plot_ellipse svd gca t ax kw) = Returned tt <->
  Forall (fun r => exists el,
            cov_to_ellipse svd (row_cov r) (x r, y r) kw = Returned el) t.
Proof.
  assert (H : forall ax0,
    fst (plot_rows svd t kw ax0) = Returned tt <->
    Forall (fun r => exists el,
              cov_to_ellipse svd (row_cov r) (x r, y r) kw = Returned el) t).
  { induction t as [|r t IH]; intros ax0; cbn [plot_rows].
    - split; [constructor|reflexivity].
    - destruct (cov_to_ellipse svd (row_cov r) (x r, y r) kw) as [el|e] eqn:E.
      + rewrite IH. split.
        * intros H. constructor; [|exact H].
          exists el. exact E.
        * intros H. inversion H. assumption.
      + cbn [fst]. split; [discriminate|].
        intros H. inversion H as [|r' t' [el Hel] _]; subst.
        rewrite E in Hel. discriminate. }
  unfold plot_ellipse. apply H.
Qed.

(** X3. [plot_ellipse] raises [e] exactly when the call of [cov_to_ellipse]
    raises [e] at some row and returns on all rows before it: the exception
    of the first failing row is the one that leaves the function. *)
Theorem plot_ellipse_raises_iff svd gca t ax kw e :
  fst (plot_ellipse svd gca t ax kw) = Raised e <->
  exists t1 r t2,
    t = t1 ++ r :: t2 /\
    Forall (fun r => exists el,
              cov_to_ellipse svd (row_cov r) (x r, y r) kw = Returned el) t1 /\
    cov_to_ellipse svd (row_cov r) (x r, y r) kw = Raised e.
Proof.
  assert (H : forall ax0,
    fst (plot_rows svd t kw ax0) = Raised e <->
    exists t1 r t2,
      t = t1 ++ r :: t2 /\
      Forall (fun r => exists el,
                cov_to_ellipse svd (row_cov r) (x r, y r) kw = Returned el) t1 /\
      cov_to_ellipse svd (row_cov r) (x r, y r) kw = Raised e).
  { induction t as [|r t IH]; intros ax0; cbn [plot_rows].
    - split; [discriminate|].
      intros (t1 & r & t2 & E & _). destruct t1; discriminate.
    - destruct (cov_to_ellipse svd (row_cov r) (x r, y r) kw) as [el|e'] eqn:E.
      + rewrite IH. split.
        * intros (t1 & r1 & t2 & -> & Hall & Hr).
          exists (r :: t1), r1, t2. split; [reflexivity|]. split; [|exact Hr].
          constructor; [exists el; exact E|exact Hall].
        * intros (t1 & r1 & t2 & Et & Hall & Hr).
          destruct t1 as [|r0 t1]; cbn [app] in Et; injection Et as -> ->.
          -- rewrite E in Hr. discriminate.
          -- inversion Hall; subst. exists t1, r1, t2. auto.
      + cbn [fst]. split.
        * intros H. injection H as ->. exists [], r, t. auto.
        * intros (t1 & r1 & t2 & Et & Hall & Hr1).
          destruct t1 as [|r0 t1]; cbn [app] in Et; injection Et as -> ->.
          -- rewrite E in Hr1. injection Hr1 as ->. reflexivity.
          -- inversion Hall as [|r' t' [el Hel] _]; subst.
             rewrite E in Hel. discriminate. }
  unfold plot_ellipse. apply H.
Qed.

Lemma cov_to_ellipse_props svd cov pos kw e :
  cov_to_ellipse svd cov pos kw = Returned e -> props e = kw.
Proof.
  unfold cov_to_ellipse. destruct (svd cov) as [[[U s] Vh]|e']; cbn.
  - intros H. injection H as <-. reflexivity.
  - discriminate.
Qed.

(** X4. Whether it returns or raises, [plot_ellipse] only appends to the
    axes it draws on: the artists that were there stay in front, in their
    order.  The ellipses it adds are those of a prefix of the table, in the
    order of the rows, each centred at its row and each carrying the
    keyword arguments of the call. *)
Theorem plot_ellipse_appends svd gca t ax kw :
  exists es,
    snd (plot_ellipse svd gca t ax kw) = target gca ax ++ es /\
    (length es <= length t)%nat /\
    Forall (fun e => props e = kw) es /\
    map xy es = map center (firstn (length es) t).
Proof.
  unfold plot_ellipse. cbv zeta. fold (target gca ax).
  generalize (target gca ax) as ax0.
  induction t as [|r t IH]; intros ax0; cbn [plot_rows].
  - exists []. rewrite app_nil_r. repeat split; auto.
  - destruct (cov_to_ellipse svd (row_cov r) (x r, y r) kw) as [el|e] eqn:E.
    + destruct (IH (add_artist ax0 el)) as (es & Hax & Hlen & Hkw & Hxy).
      exists (el :: es). unfold add_artist in Hax.
      rewrite <- app_assoc in Hax. split; [exact Hax|].
      split; [cbn [length]; apply le_n_S; exact Hlen|].
      split; [constructor; [exact (cov_to_ellipse_props _ _ _ _ _ E)|exact Hkw]|].
      cbn [length firstn map]. rewrite Hxy. f_equal.
      exact (cov_to_ellipse_xy _ _ _ _ _ E).
    + exists []. rewrite app_nil_r. repeat split; auto. cbn. apply Nat.le_0_l.
Qed.

End PlotFacts.

(** ** More on [cov_to_ellipse]: the ellipse of a valid point *)

Module EllipseFacts.
Import NumpyFacts SvdFacts EigFacts CodeFacts RefSvd Samples.

(** *** The shape of the ellipse of a valid point *)

Lemma row_cov_trace (r : Row) :
  m00 (row_cov r) + m11 (row_cov r) = sx r * sx r + sy r * sy r.
Proof. unfold row_cov. cbn [m00 m11]. ring. Qed.

Lemma row_cov_det (r : Row) :
  det (row_cov r) = sx r * sy r * (sx r * sy r) * (1 - pxy r * pxy r).
Proof. unfold det, row_cov. cbn [m00 m01 m10 m11]. ring. Qed.

(** The two axes of the ellipse of a valid point, by the eigenvalues of its
    covariance matrix. *)
Lemma valid_axes svd r pos kw :
  valid r -> svd_ok svd (row_cov r) ->
  exists e,
    cov_to_ellipse svd (row_cov r) pos kw = Returned e /\
    width e = 2 * sqrt (lambda_max (row_cov r)) /\
    height e = 2 * sqrt (lambda_min (row_cov r)) /\
    0 <= lambda_min (row_cov r) <= lambda_max (row_cov r).
Proof.
  intros Hv ([[U [s1 s2]] Vh] & Hd & Hok).
  pose proof (valid_psd r Hv) as Hpsd.
  eexists. split; [exact (cov_to_ellipse_returned _ _ _ _ _ _ _ Hd)|].
  cbn [width height fst snd]. unfold Numpy.sqrt.
  destruct (psd_singular_values _ U Vh s1 s2 Hpsd Hok) as [-> ->].
  pose proof (psd_lambda_min _ Hpsd). pose proof (lambda_order (row_cov r)).
  repeat split; lra.
Qed.

(** X5. For a valid point the squares of the two axes add up to
    [4 (sx^2 + sy^2)] and the product of the axes is
    [4 sx sy sqrt(1 - rho^2)]: the area of the ellipse is
    [pi sx sy sqrt(1 - rho^2)]. *)
Theorem axes_trace_and_area svd r pos kw :
  valid r -> svd_ok svd (row_cov r) ->
  exists e,
    cov_to_ellipse svd (row_cov r) pos kw = Returned e /\
    width e * width e + height e * height e =
      4 * (sx r * sx r + sy r * sy r) /\
    width e * height e = 4 * (sx r * sy r * sqrt (1 - pxy r * pxy r)).
Proof.
  intros Hv Hok.
  destruct (valid_axes svd r pos kw Hv Hok) as (e & He & Hw & Hh & Hq & Hpq).
  exists e. split; [exact He|].
  pose proof (lambda_sum (row_cov r)) as Hsum. rewrite row_cov_trace in Hsum.
  pose proof (lambda_prod _ (row_cov_symmetric r)) as Hprod.
  rewrite row_cov_det in Hprod.
  set (p := lambda_max (row_cov r)) in *. set (q := lambda_min (row_cov r)) in *.
  assert (Hp : 0 <= p) by lra.
  pose proof (sqrt_sqrt p Hp) as Hsp. pose proof (sqrt_sqrt q Hq) as Hsq.
  destruct Hv as (Hx & Hy & Hr1 & Hr2).
  assert (Hone : 0 <= 1 - pxy r * pxy r) by nra.
  assert (Hxy : 0 <= sx r * sy r) by nra.
  split.
  - rewrite Hw, Hh. nra.
  - rewrite Hw, Hh.
    replace (2 * sqrt p * (2 * sqrt q)) with (4 * (sqrt p * sqrt q)) by ring.
    rewrite <- sqrt_mult by assumption. rewrite Hprod.
    rewrite sqrt_mult by nra. rewrite sqrt_square by exact Hxy. reflexivity.
Qed.

Lemma axes_trace_and_area_witness :
  valid r_half /\ svd_ok svd_sym (row_cov r_half) /\
  exists e,
    cov_to_ellipse svd_sym (row_cov r_half) (center r_half) [] = Returned e /\
    width e * width e + height e * height e =
      4 * (sx r_half * sx r_half + sy r_half * sy r_half) /\
    width e * height e =
      4 * (sx r_half * sy r_half * sqrt (1 - pxy r_half * pxy r_half)).
Proof.
  split; [exact valid_r_half|]. split; [apply svd_sym_ok; reflexivity|].
  apply (axes_trace_and_area svd_sym r_half (center r_half) []).
  - exact valid_r_half.
  - apply svd_sym_ok. reflexivity.
Defined.

(** X6. A valid point with one standard deviation 0 is drawn as a line
    segment along the axis of the other one: the height is 0, the width is
    twice the other standard deviation, and the angle is 0 or a half turn
    when the point is uncertain along x and a quarter turn when it is
    uncertain along y, whatever its correlation coefficient.  A valid point
    with positive standard deviations and a correlation strictly between -1
    and 1 is drawn as a proper ellipse: its height is positive. *)
Theorem segment_or_proper_ellipse svd r pos kw :
  valid r -> svd_ok svd (row_cov r) ->
  exists e,
    cov_to_ellipse svd (row_cov r) pos kw = Returned e /\
    (sx r = 0 \/ sy r = 0 ->
     height e = 0 /\ width e = 2 * Rmax (sx r) (sy r)) /\
    (sy r = 0 -> 0 < sx r ->
     angle e = 0 \/ angle e = 180 \/ angle e = -180) /\
    (sx r = 0 -> 0 < sy r -> angle e = 90 \/ angle e = -90) /\
    (0 < sx r -> 0 < sy r -> -1 < pxy r < 1 -> 0 < height e).
Proof.
  intros Hv Hok.
  destruct (valid_axes svd r pos kw Hv Hok) as (e & He & Hw & Hh & Hq & Hpq).
  exists e. split; [exact He|].
  pose proof (lambda_sum (row_cov r)) as Hsum. rewrite row_cov_trace in Hsum.
  pose proof (lambda_prod _ (row_cov_symmetric r)) as Hprod.
  rewrite row_cov_det in Hprod.
  set (p := lambda_max (row_cov r)) in *. set (q := lambda_min (row_cov r)) in *.
  destruct Hv as (Hx & Hy & Hr1 & Hr2).
  destruct Hok as ([[U s] Vh] & Hd & Hsvd).
  pose proof He as He'.
  rewrite (cov_to_ellipse_returned _ _ _ _ _ _ _ Hd) in He'.
  pose proof degrees_0 as D0. pose proof degrees_PI as D180.
  pose proof degrees_half_PI as D90.
  pose proof (degrees_opp (PI / 2)) as Dm90. rewrite D90 in Dm90.
  split; [|split; [|split]].
  - intros Hz.
    assert (Hd0 : p * q = 0).
    { rewrite Hprod. destruct Hz as [-> | ->]; ring. }
    assert (Hq0 : q = 0).
    { apply Rmult_integral in Hd0. destruct Hd0; lra. }
    split; [rewrite Hh, Hq0, sqrt_0; ring|].
    assert (HM : Rmax (sx r) (sy r) * Rmax (sx r) (sy r) = p /\
                 0 <= Rmax (sx r) (sy r)).
    { destruct Hz as [Hz|Hz].
      - rewrite Rmax_right by lra. split; [|lra]. rewrite Hz in Hsum. lra.
      - rewrite Rmax_left by lra. split; [|lra]. rewrite Hz in Hsum. lra. }
    destruct HM as [HM HM0]. rewrite Hw, <- HM.
    rewrite sqrt_square by exact HM0. reflexivity.
  - intros Hz Hpos. injection He' as <-. cbn [angle at2].
    assert (Ec : row_cov r = mat2 (sx r * sx r) 0 0 0).
    { unfold row_cov. rewrite Hz. f_equal; ring. }
    rewrite Ec in Hsvd.
    assert (Had : 0 <= 0 < sx r * sx r) by nra.
    destruct (diag_major_first _ _ _ _ _ Had Hsvd) as (_ & -> & [-> | ->]).
    + left. rewrite arctan2_pos_axis by lra. exact D0.
    + right. left. rewrite arctan2_neg_axis by lra. exact D180.
  - intros Hz Hpos. injection He' as <-. cbn [angle at2].
    assert (Ec : row_cov r = mat2 0 0 0 (sy r * sy r)).
    { unfold row_cov. rewrite Hz. f_equal; ring. }
    rewrite Ec in Hsvd.
    assert (Had : 0 <= 0 < sy r * sy r) by nra.
    destruct (diag_major_second _ _ _ _ _ Had Hsvd) as (_ & -> & [-> | ->]).
    + left. rewrite arctan2_up by lra. exact D90.
    + right. rewrite arctan2_down by lra. exact Dm90.
  - intros Hsx Hsy Hrho.
    assert (Hpos : 0 < p * q).
    { rewrite Hprod. assert (0 < sx r * sy r) by nra.
      assert (0 < 1 - pxy r * pxy r) by nra.
      repeat apply Rmult_lt_0_compat; assumption. }
    assert (Hq1 : 0 < q).
    { destruct Hq as [Hq|Hq]; [exact Hq|].
      rewrite <- Hq, Rmult_0_r in Hpos. lra. }
    rewrite Hh. pose proof (sqrt_lt_R0 q Hq1). lra.
Qed.

(** The point with [sx = 3], [sy = 0], [rho = 1/2] is drawn as a segment
    along x; the point with [sx = sy = 1], [rho = 1/2] as a proper
    ellipse. *)
Lemma segment_or_proper_ellipse_witness :
  (valid r30 /\ svd_ok svd_sym (row_cov r30) /\
   exists e,
     cov_to_ellipse svd_sym (row_cov r30) (center r30) [] = Returned e /\
     (height e = 0 /\ width e = 2 * Rmax (sx r30) (sy r30)) /\
     (angle e = 0 \/ angle e = 180 \/ angle e = -180)) /\
  (valid r_half /\ svd_ok svd_sym (row_cov r_half) /\
   exists e,
     cov_to_ellipse svd_sym (row_cov r_half) (center r_half) [] = Returned e /\
     0 < height e).
Proof.
  assert (V30 : valid r30) by (unfold valid, r30; cbn [sx sy pxy]; lra).
  assert (S30 : svd_ok svd_sym (row_cov r30)) by (apply svd_sym_ok; reflexivity).
  assert (Sh : svd_ok svd_sym (row_cov r_half)) by (apply svd_sym_ok; reflexivity).
  split.
  - split; [exact V30|]. split; [exact S30|].
    destruct (segment_or_proper_ellipse svd_sym r30 (center r30) [] V30 S30)
      as (e & He & H1 & H2 & _).
    exists e. split; [exact He|]. split.
    + apply H1. right. reflexivity.
    + apply H2; [reflexivity|cbn [r30 sx]; lra].
  - split; [exact valid_r_half|]. split; [exact Sh|].
    destruct (segment_or_proper_ellipse svd_sym r_half (center r_half) []
                valid_r_half Sh) as (e & He & _ & _ & _ & H2).
    exists e. split; [exact He|]. apply H2; cbn [r_half sx sy pxy]; lra.
Defined.

Lemma eig_radius_zero_iff (A : Mat2) :
  eig_radius A = 0 <-> m00 A = m11 A /\ m01 A = 0.
Proof.
  pose proof (eig_radius_sq A) as Hr. pose proof (eig_radius_nonneg A) as Hr0.
  set (h := (m00 A - m11 A) / 2) in *.
  assert (Hh : m00 A - m11 A = 2 * h) by (unfold h; lra).
  clearbody h. split.
  - intros H. rewrite H in Hr.
    assert (h = 0) by nra. assert (m01 A = 0) by nra. split; lra.
  - intros [H1 H2]. assert (h = 0) by lra. subst h. rewrite H2 in Hr. nra.
Qed.

(** X7. The ellipse of a valid point is a circle, width equal to height,
    exactly when the two standard deviations are equal and the covariance
    [rho sx sy] is 0. *)
Theorem circle_iff svd r pos kw :
  valid r -> svd_ok svd (row_cov r) ->
  exists e,
    cov_to_ellipse svd (row_cov r) pos kw = Returned e /\
    (width e = height e <-> sx r = sy r /\ pxy r * sx r * sy r = 0).
Proof.
  intros Hv Hok.
  destruct (valid_axes svd r pos kw Hv Hok) as (e & He & Hw & Hh & Hq & Hpq).
  exists e. split; [exact He|]. rewrite Hw, Hh.
  pose proof (eig_radius_zero_iff (row_cov r)) as Hz.
  unfold row_cov in Hz at 2 3 4. cbn [m00 m01 m11] in Hz.
  destruct Hv as (Hx & Hy & _).
  assert (Hsq : sx r ^ 2 = sy r ^ 2 <-> sx r = sy r) by (split; intros; nra).
  split.
  - intros H. assert (Hs : sqrt (lambda_max (row_cov r)) =
                           sqrt (lambda_min (row_cov r))) by lra.
    apply sqrt_inj in Hs; [|lra|lra].
    unfold lambda_max, lambda_min in Hs.
    assert (H0 : eig_radius (row_cov r) = 0) by lra.
    apply Hz in H0. destruct H0 as [H1 H2]. split; [apply Hsq; exact H1|exact H2].
  - intros [H1 H2]. apply Hsq in H1.
    assert (H0 : eig_radius (row_cov r) = 0) by (apply Hz; split; assumption).
    unfold lambda_max, lambda_min. rewrite H0. do 2 f_equal. lra.
Qed.

Lemma circle_iff_witness :
  valid r31 /\ svd_ok svd_sym (row_cov r31) /\
  exists e,
    cov_to_ellipse svd_sym (row_cov r31) (center r31) [] = Returned e /\
    (width e = height e <-> sx r31 = sy r31 /\ pxy r31 * sx r31 * sy r31 = 0).
Proof.
  split; [exact valid_r31|]. split; [exact svd_sym_r31|].
  apply (circle_iff svd_sym r31 (center r31) []).
  - exact valid_r31.
  - exact svd_sym_r31.
Defined.

Lemma lambda_max_diag (A : Mat2) :
  m00 A <= lambda_max A /\ m11 A <= lambda_max A.
Proof.
  unfold lambda_max. pose proof (eig_radius_sq A) as Hr.
  pose proof (eig_radius_nonneg A) as Hr0.
  set (h := (m00 A - m11 A) / 2) in *.
  assert (Hh : m00 A - m11 A = 2 * h) by (unfold h; lra).
  clearbody h. assert (h <= eig_radius A) by nra.
  assert (- h <= eig_radius A) by nra. split; lra.
Qed.

Lemma lambda_min_diag (A : Mat2) :
  lambda_min A <= m00 A /\ lambda_min A <= m11 A.
Proof.
  pose proof (lambda_max_diag A). pose proof (lambda_sum A). split; lra.
Qed.

(** X8. For a valid point the width is at least twice the larger standard
    deviation and at most [2 sqrt(sx^2 + sy^2)], and the height is at most
    twice the smaller standard deviation. *)
Theorem axes_bounds svd r pos kw :
  valid r -> svd_ok svd (row_cov r) ->
  exists e,
    cov_to_ellipse svd (row_cov r) pos kw = Returned e /\
    2 * Rmax (sx r) (sy r) <= width e <=
      2 * sqrt (sx r * sx r + sy r * sy r) /\
    0 <= height e <= 2 * Rmin (sx r) (sy r).
Proof.
  intros Hv Hok.
  destruct (valid_axes svd r pos kw Hv Hok) as (e & He & Hw & Hh & Hq & Hpq).
  exists e. split; [exact He|].
  pose proof (lambda_sum (row_cov r)) as Hsum. rewrite row_cov_trace in Hsum.
  assert (Ha : sx r ^ 2 <= lambda_max (row_cov r))
    by exact (proj1 (lambda_max_diag (row_cov r))).
  assert (Hd : sy r ^ 2 <= lambda_max (row_cov r))
    by exact (proj2 (lambda_max_diag (row_cov r))).
  assert (Ha' : lambda_min (row_cov r) <= sx r ^ 2)
    by exact (proj1 (lambda_min_diag (row_cov r))).
  assert (Hd' : lambda_min (row_cov r) <= sy r ^ 2)
    by exact (proj2 (lambda_min_diag (row_cov r))).
  destruct Hv as (Hx & Hy & _).
  assert (Ex : sqrt (sx r ^ 2) = sx r).
  { replace (sx r ^ 2) with (sx r * sx r) by ring. apply sqrt_square, Hx. }
  assert (Ey : sqrt (sy r ^ 2) = sy r).
  { replace (sy r ^ 2) with (sy r * sy r) by ring. apply sqrt_square, Hy. }
  pose proof (sqrt_le_1_alt _ _ Ha) as Sa. rewrite Ex in Sa.
  pose proof (sqrt_le_1_alt _ _ Hd) as Sd. rewrite Ey in Sd.
  pose proof (sqrt_le_1_alt _ _ Ha') as Sa'. rewrite Ex in Sa'.
  pose proof (sqrt_le_1_alt _ _ Hd') as Sd'. rewrite Ey in Sd'.
  assert (Hup : lambda_max (row_cov r) <= sx r * sx r + sy r * sy r) by lra.
  pose proof (sqrt_le_1_alt _ _ Hup) as Sup.
  pose proof (sqrt_pos (lambda_min (row_cov r))).
  rewrite Hw, Hh. unfold Rmax, Rmin.
  destruct (Rle_dec (sx r) (sy r)); repeat split; lra.
Qed.

Lemma axes_bounds_witness :
  valid r_half /\ svd_ok svd_sym (row_cov r_half) /\
  exists e,
    cov_to_ellipse svd_sym (row_cov r_half) (center r_half) [] = Returned e /\
    2 * Rmax (sx r_half) (sy r_half) <= width e <=
      2 * sqrt (sx r_half * sx r_half + sy r_half * sy r_half) /\
    0 <= height e <= 2 * Rmin (sx r_half) (sy r_half).
Proof.
  split; [exact valid_r_half|]. split; [apply svd_sym_ok; reflexivity|].
  apply (axes_bounds svd_sym r_half (center r_half) []).
  - exact valid_r_half.
  - apply svd_sym_ok. reflexivity.
Defined.

(** X9. Of two valid points with the same standard deviations, the one with
    the correlation of larger absolute value has the wider and the flatter
    ellipse. *)
Theorem correlation_stretches svd r r' pos kw :
  valid r -> valid r' -> sx r' = sx r -> sy r' = sy r ->
  Rabs (pxy r) <= Rabs (pxy r') ->
  svd_ok svd (row_cov r) -> svd_ok svd (row_cov r') ->
  exists e e',
    cov_to_ellipse svd (row_cov r) pos kw = Returned e /\
    cov_to_ellipse svd (row_cov r') pos kw = Returned e' /\
    width e <= width e' /\ height e' <= height e.
Proof.
  intros Hv Hv' Ex Ey Hrho Hok Hok'.
  destruct (valid_axes svd r pos kw Hv Hok) as (e & He & Hw & Hh & Hq & Hpq).
  destruct (valid_axes svd r' pos kw Hv' Hok') as (e' & He' & Hw' & Hh' & Hq' & Hpq').
  exists e, e'. split; [exact He|]. split; [exact He'|].
  assert (Hsq : pxy r * pxy r <= pxy r' * pxy r').
  { exact (Rsqr_le_abs_1 _ _ Hrho). }
  assert (Hrad : eig_radius (row_cov r) <= eig_radius (row_cov r')).
  { unfold eig_radius. apply sqrt_le_1_alt.
    unfold row_cov. cbn [m00 m01 m11]. rewrite Ex, Ey.
    assert (0 <= sx r * sy r * (sx r * sy r)) by nra. nra. }
  assert (Htr : m00 (row_cov r') + m11 (row_cov r') =
                m00 (row_cov r) + m11 (row_cov r)).
  { unfold row_cov. cbn [m00 m11]. rewrite Ex, Ey. reflexivity. }
  assert (Hmax : lambda_max (row_cov r) <= lambda_max (row_cov r')).
  { unfold lambda_max. rewrite Htr. lra. }
  assert (Hmin : lambda_min (row_cov r') <= lambda_min (row_cov r)).
  { unfold lambda_min. rewrite Htr. lra. }
  rewrite Hw, Hw', Hh, Hh'.
  pose proof (sqrt_le_1_alt _ _ Hmax). pose proof (sqrt_le_1_alt _ _ Hmin).
  split; lra.
Qed.

Lemma correlation_stretches_witness :
  valid r31 /\ valid (row 0 0 3 1 (1 / 2)) /\
  sx (row 0 0 3 1 (1 / 2)) = sx r31 /\ sy (row 0 0 3 1 (1 / 2)) = sy r31 /\
  Rabs (pxy r31) <= Rabs (pxy (row 0 0 3 1 (1 / 2))) /\
  svd_ok svd_sym (row_cov r31) /\
  svd_ok svd_sym (row_cov (row 0 0 3 1 (1 / 2))) /\
  exists e e',
    cov_to_ellipse svd_sym (row_cov r31) (0, 0) [] = Returned e /\
    cov_to_ellipse svd_sym (row_cov (row 0 0 3 1 (1 / 2))) (0, 0) [] =
      Returned e' /\
    width e <= width e' /\ height e' <= height e.
Proof.
  assert (Hv : valid (row 0 0 3 1 (1 / 2))) by (unfold valid; cbn; lra).
  assert (Hr : Rabs (pxy r31) <= Rabs (pxy (row 0 0 3 1 (1 / 2)))).
  { cbn [pxy r31]. rewrite Rabs_R0. apply Rabs_pos. }
  assert (Hs : svd_ok svd_sym (row_cov (row 0 0 3 1 (1 / 2)))).
  { apply svd_sym_ok. reflexivity. }
  split; [exact valid_r31|]. split; [exact Hv|]. split; [reflexivity|].
  split; [reflexivity|]. split; [exact Hr|]. split; [exact svd_sym_r31|].
  split; [exact Hs|].
  exact (correlation_stretches svd_sym r31 (row 0 0 3 1 (1 / 2)) (0, 0) []
           valid_r31 Hv eq_refl eq_refl Hr svd_sym_r31 Hs).
Defined.

(** *** The direction of the ellipse of a valid point *)

Lemma psd_quadratic (a b d w0 w1 : R) :
  0 <= a -> 0 <= d -> 0 <= a * d - b * b ->
  0 <= a * (w0 * w0) + 2 * b * (w0 * w1) + d * (w1 * w1).
Proof.
  intros Ha Hd Hdet. destruct Ha as [Ha|<-].
  - assert (H : 0 <= a * (a * (w0 * w0) + 2 * b * (w0 * w1) + d * (w1 * w1))).
    { replace (a * (a * (w0 * w0) + 2 * b * (w0 * w1) + d * (w1 * w1)))
        with ((a * w0 + b * w1) * (a * w0 + b * w1) +
              (a * d - b * b) * (w1 * w1)) by ring.
      pose proof (Rle_0_sqr (a * w0 + b * w1)). pose proof (Rle_0_sqr w1).
      unfold Rsqr in *. nra. }
    nra.
  - assert (b = 0) by nra. subst b. pose proof (Rle_0_sqr w1).
    unfold Rsqr in *. nra.
Qed.

(** For a positive semi-definite array the first column of [U] is an
    eigenvector of the array itself, for the first singular value. *)
Lemma psd_left_vector_eigen (A U Vh : Mat2) (s1 s2 : R) :
  psd A -> is_svd A (U, (s1, s2), Vh) ->
  m00 A * m00 U + m01 A * m10 U = s1 * m00 U /\
  m10 A * m00 U + m11 A * m10 U = s1 * m10 U.
Proof.
  intros (Hsym & Ha & Hd & Hdet) H.
  pose proof (svd_gram _ _ _ _ _ H) as G.
  pose proof (svd_frob _ _ _ _ _ H) as F.
  assert (Hs : 0 <= s2 <= s1) by (destruct H as (_ & _ & Hs & _); exact Hs).
  destruct H as ((Hu1 & Hu2) & _).
  destruct A as [a b b' d], U as [u00 u01 u10 u11].
  unfold symmetric, det, frob in *. cbn [m00 m01 m10 m11] in *. subst b'.
  unfold mmul, mtrans, mid, mdiag in *. cbn [m00 m01 m10 m11 fst snd] in *.
  injection Hu1 as ? ? ? ?. injection Hu2 as ? ? ? ?. injection G as ? ? ? ?.
  set (w0 := a * u00 + b * u10 - s1 * u00).
  set (w1 := b * u00 + d * u10 - s1 * u10).
  assert (G0 : (a * a + b * b) * u00 + (a * b + b * d) * u10 = s1 * s1 * u00)
    by nsatz.
  assert (G1 : (b * a + d * b) * u00 + (b * b + d * d) * u10 = s1 * s1 * u10)
    by nsatz.
  assert (W0 : a * w0 + b * w1 = - s1 * w0) by (unfold w0, w1; lra).
  assert (W1 : b * w0 + d * w1 = - s1 * w1) by (unfold w0, w1; lra).
  pose proof (psd_quadratic a b d w0 w1 Ha Hd Hdet) as Q.
  assert (Q' : a * (w0 * w0) + 2 * b * (w0 * w1) + d * (w1 * w1) =
               - s1 * (w0 * w0 + w1 * w1)).
  { transitivity (w0 * (a * w0 + b * w1) + w1 * (b * w0 + d * w1)); [ring|].
    rewrite W0, W1. ring. }
  assert (Hw : w0 = 0 /\ w1 = 0).
  { destruct (Req_dec s1 0) as [E|E].
    - assert (s2 = 0) by lra. subst s1 s2.
      assert (a = 0) by nra. assert (d = 0) by nra. assert (b = 0) by nra.
      unfold w0, w1. subst. split; ring.
    - pose proof (Rle_0_sqr w0). pose proof (Rle_0_sqr w1). unfold Rsqr in *.
      assert (0 < s1) by lra.
      assert (w0 * w0 + w1 * w1 = 0) by nra. split; nra. }
  destruct Hw as [Hw0 Hw1]. unfold w0, w1 in Hw0, Hw1. split; lra.
Qed.

(** X10. For a valid point the returned angle is the direction of an
    eigenvector of the covariance matrix, and the eigenvalue, the variance
    along that direction, is the square of half the width. *)
Theorem angle_is_principal_axis svd r pos kw :
  valid r -> svd_ok svd (row_cov r) ->
  exists e,
    cov_to_ellipse svd (row_cov r) pos kw = Returned e /\
    let c := cos (Numpy.radians (angle e)) in
    let s := sin (Numpy.radians (angle e)) in
    let v := (width e / 2) * (width e / 2) in
    sx r ^ 2 * c + pxy r * sx r * sy r * s = v * c /\
    pxy r * sx r * sy r * c + sy r ^ 2 * s = v * s.
Proof.
  intros Hv ([[U [s1 s2]] Vh] & Hd & Hok).
  eexists. split; [exact (cov_to_ellipse_returned _ _ _ _ _ _ _ Hd)|].
  cbn [width angle fst snd at2 Numpy.sqrt]. unfold Numpy.sqrt.
  rewrite radians_degrees.
  destruct (arctan2_polar (m10 U) (m00 U) (svd_first_unit _ _ _ _ Hok))
    as [-> ->].
  destruct (psd_left_vector_eigen _ _ _ _ _ (valid_psd r Hv) Hok) as [E0 E1].
  unfold row_cov in E0, E1. cbn [m00 m01 m10 m11] in E0, E1.
  assert (Hs1 : 0 <= s1) by (destruct Hok as (_ & _ & Hs & _); cbn in Hs; lra).
  replace (2 * sqrt s1 / 2 * (2 * sqrt s1 / 2)) with (sqrt s1 * sqrt s1)
    by field.
  rewrite (sqrt_sqrt s1 Hs1). split; assumption.
Qed.

Lemma angle_is_principal_axis_witness :
  valid r_half /\ svd_ok svd_flip (row_cov r_half) /\
  exists e,
    cov_to_ellipse svd_flip (row_cov r_half) (center r_half) [] = Returned e /\
    let c := cos (Numpy.radians (angle e)) in
    let s := sin (Numpy.radians (angle e)) in
    let v := (width e / 2) * (width e / 2) in
    sx r_half ^ 2 * c + pxy r_half * sx r_half * sy r_half * s = v * c /\
    pxy r_half * sx r_half * sy r_half * c + sy r_half ^ 2 * s = v * s.
Proof.
  split; [exact valid_r_half|]. split; [apply svd_flip_ok; reflexivity|].
  apply (angle_is_principal_axis svd_flip r_half (center r_half) []).
  - exact valid_r_half.
  - apply svd_flip_ok. reflexivity.
Defined.

Lemma atan_pos (t : R) : 0 < t -> 0 < atan t < PI / 2.
Proof.
  intros Ht. pose proof (atan_bound t). split; [|lra].
  rewrite <- atan_0. apply atan_increasing. exact Ht.
Qed.

Lemma atan_neg (t : R) : t < 0 -> - (PI / 2) < atan t < 0.
Proof.
  intros Ht. pose proof (atan_bound t). split; [lra|].
  rewrite <- atan_0. apply atan_increasing. exact Ht.
Qed.

Lemma div_pos_neg (v u : R) : 0 < v -> u < 0 -> v / u < 0.
Proof.
  intros Hv Hu. unfold Rdiv.
  assert (/ u < 0) by (apply Rinv_lt_0_compat; exact Hu). nra.
Qed.

Lemma div_neg_neg (v u : R) : v < 0 -> u < 0 -> 0 < v / u.
Proof.
  intros Hv Hu. unfold Rdiv.
  assert (/ u < 0) by (apply Rinv_lt_0_compat; exact Hu). nra.
Qed.

Lemma div_neg_pos (v u : R) : v < 0 -> 0 < u -> v / u < 0.
Proof.
  intros Hv Hu. unfold Rdiv.
  assert (0 < / u) by (apply Rinv_0_lt_compat; exact Hu). nra.
Qed.

(** [arctan2] in the four open quadrants. *)
Lemma arctan2_quadrants (v u : R) :
  (0 < u -> 0 < v -> 0 < Numpy.arctan2 v u < PI / 2) /\
  (u < 0 -> 0 < v -> PI / 2 < Numpy.arctan2 v u < PI) /\
  (u < 0 -> v < 0 -> - PI < Numpy.arctan2 v u < - (PI / 2)) /\
  (0 < u -> v < 0 -> - (PI / 2) < Numpy.arctan2 v u < 0).
Proof.
  unfold Numpy.arctan2. split; [|split; [|split]]; intros Hu Hv.
  - destruct (Rlt_dec 0 u); [|lra].
    apply atan_pos, Rdiv_lt_0_compat; assumption.
  - destruct (Rlt_dec 0 u); [lra|]. destruct (Rlt_dec u 0); [|lra].
    destruct (Rle_dec 0 v); [|lra].
    pose proof (atan_neg _ (div_pos_neg v u Hv Hu)). lra.
  - destruct (Rlt_dec 0 u); [lra|]. destruct (Rlt_dec u 0); [|lra].
    destruct (Rle_dec 0 v); [lra|].
    pose proof (atan_pos _ (div_neg_neg v u Hv Hu)). lra.
  - destruct (Rlt_dec 0 u); [|lra].
    pose proof (atan_neg _ (div_neg_pos v u Hv Hu)). lra.
Qed.

(** The first column of [U] for a covariance matrix with a non-zero
    off-diagonal entry [b]: its two entries are non-zero, and their product
    has the sign of [b]. *)
Lemma psd_left_vector_tilt (A U Vh : Mat2) (s1 s2 : R) :
  psd A -> is_svd A (U, (s1, s2), Vh) -> m01 A <> 0 ->
  0 < m01 A * (m00 U * m10 U).
Proof.
  intros Hpsd H Hb.
  destruct (psd_left_vector_eigen _ _ _ _ _ Hpsd H) as [E0 E1].
  pose proof (svd_first_unit _ _ _ _ H) as Hu.
  destruct (psd_singular_values _ _ _ _ _ Hpsd H) as [-> _].
  destruct (lambda_max_diag A) as [Ha Hd].
  destruct Hpsd as (Hsym & _). unfold symmetric in Hsym. rewrite <- Hsym in E1.
  set (l := lambda_max A) in *. set (a := m00 A) in *. set (d := m11 A) in *.
  set (b := m01 A) in *. set (u := m00 U) in *. set (v := m10 U) in *.
  assert (B0 : b * v = (l - a) * u) by lra.
  assert (B1 : b * u = (l - d) * v) by lra.
  assert (P0 : b * (u * v) = (l - a) * (u * u)).
  { transitivity (u * (b * v)); [ring|rewrite B0; ring]. }
  assert (P1 : b * (u * v) = (l - d) * (v * v)).
  { transitivity (v * (b * u)); [ring|rewrite B1; ring]. }
  pose proof (Rle_0_sqr u) as Hu2. pose proof (Rle_0_sqr v) as Hv2.
  unfold Rsqr in *.
  assert (Hge : 0 <= b * (u * v)) by nra.
  destruct Hge as [Hgt|Heq]; [exact Hgt|exfalso].
  symmetry in Heq. apply Rmult_integral in Heq.
  destruct Heq as [Heq|Heq]; [contradiction|].
  apply Rmult_integral in Heq. destruct Heq as [Hz|Hz].
  - rewrite Hz in *. assert (Hvv : v * v = 1) by lra.
    assert (Hbv : b * v = 0) by lra.
    assert (Hbvv : b * (v * v) = 0).
    { transitivity (v * (b * v)); [ring|rewrite Hbv; ring]. }
    rewrite Hvv in Hbvv. lra.
  - rewrite Hz in *. assert (Huu : u * u = 1) by lra.
    assert (Hbu : b * u = 0) by lra.
    assert (Hbuu : b * (u * u) = 0).
    { transitivity (u * (b * u)); [ring|rewrite Hbu; ring]. }
    rewrite Huu in Hbuu. lra.
Qed.

(** X11. For a valid point with positive covariance [rho sx sy] the major
    axis rises from left to right: the angle lies in [0, 90] or in
    [-180, -90].  With negative covariance it falls: the angle lies in
    [90, 180] or in [-90, 0].  The ends are included because a float
    result can round to them. *)
Theorem covariance_sign_tilts svd r pos kw :
  valid r -> svd_ok svd (row_cov r) ->
  exists e,
    cov_to_ellipse svd (row_cov r) pos kw = Returned e /\
    (0 < pxy r * sx r * sy r ->
     0 <= angle e <= 90 \/ -180 <= angle e <= -90) /\
    (pxy r * sx r * sy r < 0 ->
     90 <= angle e <= 180 \/ -90 <= angle e <= 0).
Proof.
  intros Hv ([[U [s1 s2]] Vh] & Hd & Hok).
  eexists. split; [exact (cov_to_ellipse_returned _ _ _ _ _ _ _ Hd)|].
  cbn [angle at2].
  pose proof (psd_left_vector_tilt _ _ _ _ _ (valid_psd r Hv) Hok) as Ht.
  change (m01 (row_cov r)) with (pxy r * sx r * sy r) in Ht.
  destruct (arctan2_quadrants (m10 U) (m00 U)) as (Q1 & Q2 & Q3 & Q4).
  pose proof degrees_0 as D0. pose proof degrees_PI as D180.
  pose proof degrees_half_PI as D90.
  pose proof (degrees_opp PI) as Dm180. rewrite D180 in Dm180.
  pose proof (degrees_opp (PI / 2)) as Dm90. rewrite D90 in Dm90.
  assert (Hm : forall a b c, a < b < c ->
             Numpy.degrees a < Numpy.degrees b < Numpy.degrees c).
  { intros a b c [H1 H2]. split; apply degrees_lt; assumption. }
  set (u := m00 U) in *. set (v := m10 U) in *. clearbody u v.
  assert (Sg : forall a b : R, 0 < a * b -> 0 < a -> 0 < b).
  { intros a b Hab Ha. destruct (Rle_dec b 0); [exfalso; nra|lra]. }
  assert (Sg' : forall a b : R, 0 < a * b -> ~ 0 < a -> a < 0 /\ b < 0).
  { intros a b Hab Ha. destruct (Rle_dec 0 b); split; nra. }
  split; intros Hb.
  - assert (Huv : 0 < u * v).
    { assert (Hne : pxy r * sx r * sy r <> 0) by lra.
      specialize (Ht Hne). apply (Sg (pxy r * sx r * sy r)); assumption. }
    destruct (Rlt_dec 0 u) as [Hu|Hu].
    + left. pose proof (Hm _ _ _ (Q1 Hu (Sg _ _ Huv Hu))). lra.
    + right. destruct (Sg' _ _ Huv Hu) as [Hu' Hv'].
      pose proof (Hm _ _ _ (Q3 Hu' Hv')). lra.
  - assert (Huv : 0 < u * - v).
    { assert (Hne : pxy r * sx r * sy r <> 0) by lra.
      specialize (Ht Hne).
      apply (Sg (- (pxy r * sx r * sy r))); [|lra].
      replace (- (pxy r * sx r * sy r) * (u * - v))
        with (pxy r * sx r * sy r * (u * v)) by ring. exact Ht. }
    destruct (Rlt_dec 0 u) as [Hu|Hu].
    + right. assert (Hv' : v < 0) by (pose proof (Sg _ _ Huv Hu); lra).
      pose proof (Hm _ _ _ (Q4 Hu Hv')). lra.
    + left. destruct (Sg' _ _ Huv Hu) as [Hu' Hv'].
      assert (Hv'' : 0 < v) by lra.
      pose proof (Hm _ _ _ (Q2 Hu' Hv'')). lra.
Qed.

Lemma covariance_sign_tilts_witness :
  valid r_half /\ svd_ok svd_flip (row_cov r_half) /\
  exists e,
    cov_to_ellipse svd_flip (row_cov r_half) (center r_half) [] = Returned e /\
    (0 < pxy r_half * sx r_half * sy r_half ->
     0 <= angle e <= 90 \/ -180 <= angle e <= -90) /\
    (pxy r_half * sx r_half * sy r_half < 0 ->
     90 <= angle e <= 180 \/ -90 <= angle e <= 0).
Proof.
  split; [exact valid_r_half|]. split; [apply svd_flip_ok; reflexivity|].
  apply (covariance_sign_tilts svd_flip r_half (center r_half) []).
  - exact valid_r_half.
  - apply svd_flip_ok. reflexivity.
Defined.

(** X12. The width and the height do not depend on the decomposition
    routine: two routines that meet the contract give the same two axes for
    the same array.  When the ellipse is not a circle they also give the
    same direction, so the two angles are equal or differ by 180
    degrees. *)
Theorem axes_independent_of_routine svd1 svd2 cov pos kw :
  svd_ok svd1 cov -> svd_ok svd2 cov ->
  exists e1 e2,
    cov_to_ellipse svd1 cov pos kw = Returned e1 /\
    cov_to_ellipse svd2 cov pos kw = Returned e2 /\
    width e2 = width e1 /\ height e2 = height e1 /\
    (height e1 < width e1 ->
     angle e2 = angle e1 \/ angle e2 = angle e1 + 180 \/
     angle e2 = angle e1 - 180).
Proof.
  intros ([[U [s1 s2]] Vh] & Hd & Hok) ([[U' s'] Vh'] & Hd' & Hok').
  pose proof (svd_values_unique _ _ _ _ _ _ _ Hok Hok') as <-.
  do 2 eexists.
  split; [exact (cov_to_ellipse_returned _ _ _ _ _ _ _ Hd)|].
  split; [exact (cov_to_ellipse_returned _ _ _ _ _ _ _ Hd')|].
  cbn [width height angle fst snd at2]. unfold Numpy.sqrt.
  split; [reflexivity|]. split; [reflexivity|]. intros Hlt.
  assert (Hs12 : s2 < s1) by (apply sqrt_lt_0_alt; lra).
  destruct (svd_left_vector_unique _ _ _ _ _ _ _ Hs12 Hok Hok')
    as [[-> ->]|[-> ->]].
  - left. reflexivity.
  - right. pose proof degrees_PI as D180. pose proof (degrees_opp PI) as Dm.
    destruct (arctan2_opp (m10 U) (m00 U) (svd_first_unit _ _ _ _ Hok))
      as [->| ->].
    + left. rewrite degrees_plus. lra.
    + right. unfold Rminus. rewrite degrees_plus. lra.
Qed.

Lemma axes_independent_of_routine_witness :
  svd_ok svd_sym (row_cov r_half) /\ svd_ok svd_flip (row_cov r_half) /\
  exists e1 e2,
    cov_to_ellipse svd_sym (row_cov r_half) (0, 0) [] = Returned e1 /\
    cov_to_ellipse svd_flip (row_cov r_half) (0, 0) [] = Returned e2 /\
    width e2 = width e1 /\ height e2 = height e1 /\
    (height e1 < width e1 ->
     angle e2 = angle e1 \/ angle e2 = angle e1 + 180 \/
     angle e2 = angle e1 - 180).
Proof.
  assert (H1 : svd_ok svd_sym (row_cov r_half)) by (apply svd_sym_ok; reflexivity).
  assert (H2 : svd_ok svd_flip (row_cov r_half)) by (apply svd_flip_ok; reflexivity).
  split; [exact H1|]. split; [exact H2|].
  exact (axes_independent_of_routine svd_sym svd_flip (row_cov r_half) (0, 0) []
           H1 H2).
Defined.

End EllipseFacts.

(** ** The tutorial notebook *)

Module GeneralPythonFacts.
Import GeneralPython.

(** *** Loop and comprehension *)

Lemma fold_left_snoc {A B : Type} (f : A -> B) (a : list A) : forall acc,
  fold_left (fun acc i => acc ++ [f i]) a acc = acc ++ map f a.
Proof.
  induction a as [|i a IH]; intros acc; cbn [fold_left map].
  - symmetry. apply app_nil_r.
  - rewrite IH, <- app_assoc. reflexivity.
Qed.

Lemma fold_left_map {A B C : Type} (f : C -> B -> C) (g : A -> B) (a : list A) :
  forall c, fold_left f (map g a) c = fold_left (fun c i => f c (g i)) a c.
Proof.
  induction a as [|i a IH]; intros c; cbn [fold_left map].
  - reflexivity.
  - apply IH.
Qed.

(** X13. The loop with [append] and the list comprehension build the same
    list, the squares of the elements of [a] in the order of [a]; the loop
    with item assignment and the dict comprehension build the same dict. *)
Theorem loop_is_comprehension (a : list Z) :
  list_loop a = list_comp a /\
  length (list_comp a) = length a /\
  (forall n i, nth_error a n = Some i ->
     nth_error (list_comp a) n = Some (i * i)%Z) /\
  dict_loop a = dict_comp a.
Proof.
  split; [|split; [|split]].
  - unfold list_loop, list_comp. apply (fold_left_snoc (fun i => (i ^ 2)%Z)).
  - unfold list_comp. apply length_map.
  - intros n i Hn. unfold list_comp.
    rewrite nth_error_map, Hn. cbn. f_equal. apply Z.pow_2_r.
  - unfold dict_loop, dict_comp. symmetry.
    apply (fold_left_map (fun d kv => dict_set d (fst kv) (snd kv))).
Qed.

(** *** The keys of the dict *)

Lemma to_int_not_nil (z : Z) :
  Z.to_int z <> Decimal.Pos Decimal.Nil /\ Z.to_int z <> Decimal.Neg Decimal.Nil.
Proof.
  destruct z as [|p|p]; cbn; split; try discriminate.
  - intros H. injection H as H.
    exact (DecimalPos.Unsigned.to_uint_nonnil p H).
  - intros H. injection H as H.
    exact (DecimalPos.Unsigned.to_uint_nonnil p H).
Qed.

(** Different ints have different keys. *)
Lemma format_key_inj (i j : Z) : format_key i = format_key j -> i = j.
Proof.
  unfold format_key. cbn [append]. intros H. injection H as H.
  apply DecimalZ.to_int_inj.
  destruct (to_int_not_nil i) as [Hi Hi'], (to_int_not_nil j) as [Hj Hj'].
  pose proof (NilZero.isi _ Hi Hi') as Ei.
  pose proof (NilZero.isi _ Hj Hj') as Ej.
  rewrite H in Ei. rewrite Ei in Ej. injection Ej as Ej. exact Ej.
Qed.

Lemma dict_get_set_same (d : dict) (k : string) (v : Z) :
  dict_get (dict_set d k v) k = Some v.
Proof.
  induction d as [|[k' v'] d IH]; cbn [dict_set dict_get].
  - rewrite String.eqb_refl. reflexivity.
  - destruct (String.eqb k' k) eqn:E; cbn [dict_get].
    + rewrite String.eqb_refl. reflexivity.
    + rewrite E. exact IH.
Qed.

Lemma dict_get_set_other (d : dict) (k k0 : string) (v : Z) :
  k <> k0 -> dict_get (dict_set d k v) k0 = dict_get d k0.
Proof.
  intros Hk. induction d as [|[k' v'] d IH]; cbn [dict_set dict_get].
  - apply String.eqb_neq in Hk. rewrite Hk. reflexivity.
  - destruct (String.eqb k' k) eqn:E; cbn [dict_get].
    + apply String.eqb_eq in E. subst k'.
      apply String.eqb_neq in Hk. rewrite Hk. reflexivity.
    + destruct (String.eqb k' k0); [reflexivity|exact IH].
Qed.

(** X14. The keys ['key{0}'.format(i)] do not collide: in the dict built
    from [a], the key of an int gives back that int when it occurs in [a],
    and is missing when it does not. *)
Theorem dict_lookup_round_trip (a : list Z) (i : Z) :
  (In i a -> dict_get (dict_loop a) (format_key i) = Some i) /\
  (~ In i a -> dict_get (dict_loop a) (format_key i) = None).
Proof.
  assert (H : forall d,
    dict_get (fold_left (fun d i => dict_set d (format_key i) i) a d)
             (format_key i) =
    if in_dec Z.eq_dec i a then Some i else dict_get d (format_key i)).
  { induction a as [|j a IH]; intros d; cbn [fold_left].
    - reflexivity.
    - rewrite IH. destruct (in_dec Z.eq_dec i a) as [Hin|Hin].
      + destruct (in_dec Z.eq_dec i (j :: a)) as [_|Hn]; [reflexivity|].
        exfalso. apply Hn. right. exact Hin.
      + destruct (in_dec Z.eq_dec i (j :: a)) as [[->|Hin']|Hn].
        * apply dict_get_set_same.
        * contradiction.
        * apply dict_get_set_other. intros E. apply format_key_inj in E.
          apply Hn. left. exact E. }
  unfold dict_loop. rewrite H.
  destruct (in_dec Z.eq_dec i a); split; intros Hi;
    try reflexivity; contradiction.
Qed.

(** *** The shapes *)














Lemma dict_lookup_round_trip_witness :
  In 3%Z [3; -2; 3]%Z /\ ~ In 7%Z [3; -2; 3]%Z /\
  dict_get (dict_loop [3; -2; 3]%Z) (format_key 3) = Some 3%Z /\
  dict_get (dict_loop [3; -2; 3]%Z) (format_key 7) = None.
Proof.
  assert (H1 : In 3%Z [3; -2; 3]%Z) by (left; reflexivity).
  assert (H2 : ~ In 7%Z [3; -2; 3]%Z).
  { intros [H|[H|[H|[]]]]; discriminate. }
  split; [exact H1|]. split; [exact H2|]. split.
  - exact (proj1 (dict_lookup_round_trip [3; -2; 3]%Z 3) H1).
  - exact (proj2 (dict_lookup_round_trip [3; -2; 3]%Z 7) H2).
Defined.




End GeneralPythonFacts.
